(** * MSOGL: the generic OpenGL video display filter

    A shallow embedding of [src/videofilters/generic_opengl_display.c].

    The filter is a thin adapter between the host filter graph and the
    [opengles_display] renderer.  Everything the file does is a sequence of
    reads and writes of its [FilterData] block, of calls into the renderer
    and of lock operations on the filter, so the embedding is a small
    state-and-output monad with faults:

    - the state holds the [MSFilter] seen by the callbacks (its [data]
      pointer and its input queues), the heap of [FilterData] blocks handed
      out by [ms_new0], and the supply of renderer handles;
    - the output is the list of calls made to the outside (renderer, lock,
      logger, GLEW, picture helpers), oldest first;
    - a fault is a dereference of a null or freed [FilterData] pointer, an
      input index outside the array, or an argument read through a null
      pointer or through a cast that does not fit what the pointer points to.

    The lock operations are recorded in the output, in order, like any other
    call.  What the mutex does with them is read off the output afterwards
    ([mutex_after], [executed]): a lock operation on a held mutex is where
    the real call stops. *)

From Stdlib Require Import ZArith NArith List String Bool Lia.
From stdpp Require Import base tactics option list.
Import ListNotations.

Local Open Scope Z_scope.
Local Open Scope string_scope.
Local Open Scope list_scope.

(** ** Data model *)

(** [bool_t] is an unsigned char; zero is false, anything else is true. *)
Abbreviation bool_t := N (only parsing).
Definition TRUE : bool_t := 1%N.
Definition FALSE : bool_t := 0%N.
Definition truth (b : bool_t) : bool := negb (N.eqb b 0).

(** [struct _ContextInfo]: two [GLuint]. *)
Record ContextInfo := mkContextInfo {
  width : N;
  height : N
}.

(** [MSVideoSize]: two [int]. *)
Module MSVideoSize.
Record t := mk {
  width : Z;
  height : Z
}.
End MSVideoSize.

(** A block address on the heap of [FilterData]; a pointer is an optional
    address, [None] being [NULL]. *)
Abbreviation addr := nat (only parsing).

(** A renderer handle ([struct opengles_display *], [None] being [NULL]). *)
Abbreviation handle := nat (only parsing).

(** [struct _FilterData]. *)
Record FilterData := mkFilterData {
  context_info : ContextInfo;
  display : option handle;
  video_size : MSVideoSize.t;
  show_video : bool_t;
  mirroring : bool_t
}.

(** What [ms_new0(FilterData, 1)] returns: every byte zero. *)
Definition FilterData0 : FilterData :=
  {| context_info := mkContextInfo 0 0;
     display := None;
     video_size := MSVideoSize.mk 0 0;
     show_video := FALSE;
     mirroring := FALSE |}.

(** [MSPicture] (alias [YuvBuf]): the size of the picture and the block its
    planes point into. *)
Module MSPicture.
Record t := mk {
  w : Z;
  h : Z;
  planes : nat
}.
End MSPicture.

(** A message block of a queue.  The file looks at a block only through
    [ms_yuv_buf_init_from_mblk] and [mblk_get_precious_flag], both declared
    in the host headers: [yuv_header] is the size the former finds ([None]
    when it returns nonzero) and [precious_flag] what the latter reads. *)
Record mblk_t := mkblk {
  b_id : nat;
  yuv_header : option (Z * Z);
  precious_flag : bool
}.

(** [MSQueue]: oldest block first, [ms_queue_put] appends. *)
Abbreviation MSQueue := (list mblk_t) (only parsing).

(** The part of [MSFilter] this file touches. *)
Record MSFilter := mkFilter {
  data : option addr;
  inputs : list (option MSQueue)
}.

(** A [void *arg] of a method call: the null pointer, or what it points to
    ([ArgOpaque]: something the file never reads, given by its address). *)
Inductive Arg :=
| ArgVideoSize (vs : MSVideoSize.t)
| ArgWindowId (ci : option ContextInfo)
| ArgBool (b : bool_t)
| ArgOpaque (p : N)
| ArgNull.

(** Calls that leave the file. *)
Inductive Event :=
| ms_filter_lock_ev
| ms_filter_unlock_ev
| glewInit_ev
| ms_error_ev (fmt : string)
| ms_message_ev (fmt : string)
| ogl_display_new_ev (ret : handle)
| ogl_display_free_ev (d : option handle)
| ogl_display_init_ev (d : option handle) (w h : N)
| ogl_display_set_yuv_to_display_ev (d : option handle) (m : mblk_t)
| ogl_display_zoom_ev (d : option handle) (arg : Arg)
| ogl_display_render_ev (d : option handle) (flags : Z)
| ms_yuv_buf_mirror_ev (pic : MSPicture.t).

Record State := mkState {
  flt : MSFilter;
  heap : list (option FilterData);
  next_display : handle
}.

(** ** The monad *)

Definition M (A : Type) : Type := State -> option (A * State * list Event).

Definition ret {A} (x : A) : M A := fun s => Some (x, s, []).

Definition bind {A B} (m : M A) (k : A -> M B) : M B := fun s =>
  match m s with
  | Some (x, s1, e1) =>
      match k x s1 with
      | Some (y, s2, e2) => Some (y, s2, e1 ++ e2)
      | None => None
      end
  | None => None
  end.

Definition fault {A} : M A := fun _ => None.
Definition emit (e : Event) : M unit := fun s => Some (tt, s, [e]).
Definition gets {A} (g : State -> A) : M A := fun s => Some (g s, s, []).
Definition modify (g : State -> State) : M unit := fun s => Some (tt, g s, []).

Declare Scope ogl_scope.
Delimit Scope ogl_scope with ogl.
Notation "x <- c ;; k" := (bind c (fun x => k))
  (at level 100, c at next level, right associativity) : ogl_scope.
Notation "c ;;; k" := (bind c (fun _ => k))
  (at level 100, right associativity) : ogl_scope.
Local Open Scope ogl_scope.

(** ** Memory and host primitives *)

Definition set_heap (hp : list (option FilterData)) (s : State) : State :=
  {| flt := flt s; heap := hp; next_display := next_display s |}.

Definition set_flt (f : MSFilter) (s : State) : State :=
  {| flt := f; heap := heap s; next_display := next_display s |}.

(** [ms_new0(FilterData, 1)] *)
Definition ms_new0 : M (option addr) := fun s =>
  Some (Some (length (heap s)), set_heap (heap s ++ [Some FilterData0]) s, []).

(** [ms_free(p)] *)
Definition ms_free (p : option addr) : M unit := fun s =>
  match p with
  | Some a =>
      match heap s !! a with
      | Some (Some _) => Some (tt, set_heap (<[a := None]> (heap s)) s, [])
      | _ => None
      end
  | None => Some (tt, s, [])
  end.

(** [*p] for a [FilterData *p] *)
Definition load (p : option addr) : M FilterData := fun s =>
  match p with
  | Some a =>
      match heap s !! a with
      | Some (Some d) => Some (d, s, [])
      | _ => None
      end
  | None => None
  end.

(** [p->field = v], as an update of the block *)
Definition store (p : option addr) (upd : FilterData -> FilterData) : M unit :=
  d <- load p ;;
  match p with
  | Some a => modify (fun s => set_heap (<[a := Some (upd d)]> (heap s)) s)
  | None => fault
  end.

Definition set_context_info (v : ContextInfo) (d : FilterData) : FilterData :=
  {| context_info := v; display := display d; video_size := video_size d;
     show_video := show_video d; mirroring := mirroring d |}.
Definition set_display (v : option handle) (d : FilterData) : FilterData :=
  {| context_info := context_info d; display := v; video_size := video_size d;
     show_video := show_video d; mirroring := mirroring d |}.
Definition set_video_size (v : MSVideoSize.t) (d : FilterData) : FilterData :=
  {| context_info := context_info d; display := display d; video_size := v;
     show_video := show_video d; mirroring := mirroring d |}.
Definition set_video_size_width (v : Z) (d : FilterData) : FilterData :=
  set_video_size (MSVideoSize.mk v (MSVideoSize.height (video_size d))) d.
Definition set_show_video (v : bool_t) (d : FilterData) : FilterData :=
  {| context_info := context_info d; display := display d; video_size := video_size d;
     show_video := v; mirroring := mirroring d |}.
Definition set_mirroring (v : bool_t) (d : FilterData) : FilterData :=
  {| context_info := context_info d; display := display d; video_size := video_size d;
     show_video := show_video d; mirroring := v |}.

(** [ms_filter_lock(f)] and [ms_filter_unlock(f)]: recorded as they are
    made; what the mutex does with them is the matter of [mutex_after]. *)
Definition ms_filter_lock : M unit := emit ms_filter_lock_ev.
Definition ms_filter_unlock : M unit := emit ms_filter_unlock_ev.
Definition ms_error (fmt : string) : M unit := emit (ms_error_ev fmt).
Definition ms_message (fmt : string) : M unit := emit (ms_message_ev fmt).

(** The renderer: its calls are recorded with their arguments;
    [ogl_display_new] hands out the next unused handle. *)
Definition ogl_display_new : M (option handle) := fun s =>
  Some (Some (next_display s),
        {| flt := flt s; heap := heap s; next_display := S (next_display s) |},
        [ogl_display_new_ev (next_display s)]).
Definition ogl_display_free (d : option handle) : M unit :=
  emit (ogl_display_free_ev d).
Definition ogl_display_init (d : option handle) (w h : N) : M unit :=
  emit (ogl_display_init_ev d w h).
Definition ogl_display_set_yuv_to_display (d : option handle) (m : mblk_t) : M unit :=
  emit (ogl_display_set_yuv_to_display_ev d m).
Definition ogl_display_zoom (d : option handle) (arg : Arg) : M unit :=
  emit (ogl_display_zoom_ev d arg).
Definition ogl_display_render (d : option handle) (flags : Z) : M unit :=
  emit (ogl_display_render_ev d flags).

(** Picture helpers of the host. *)
Definition ms_yuv_buf_init_from_mblk (m : mblk_t) : option MSPicture.t :=
  match yuv_header m with
  | Some (w, h) => Some (MSPicture.mk w h (b_id m))
  | None => None
  end.
Definition mblk_get_precious_flag (m : mblk_t) : bool := precious_flag m.
Definition ms_yuv_buf_mirror (pic : MSPicture.t) : M unit :=
  emit (ms_yuv_buf_mirror_ev pic).

(** Queues of the host. *)
Definition ms_queue_peek_last (q : MSQueue) : option mblk_t := last (A:=mblk_t) q.

(** [f->inputs[i]]; reading outside the array is a fault. *)
Definition input (i : nat) : M (option MSQueue) := fun s =>
  match inputs (flt s) !! i with
  | Some q => Some (q, s, [])
  | None => None
  end.

(** [ms_queue_flush(f->inputs[i])] *)
Definition ms_queue_flush (i : nat) : M unit :=
  modify (fun s => set_flt (mkFilter (data (flt s)) (<[i := Some []]> (inputs (flt s)))) s).

(** The outcome of the GLEW probe: what [glewInit()] returns and what the
    [GLEW_VERSION_2_0] flag reads afterwards. *)
Record Glew := mkGlew {
  glewInit_is_GLEW_OK : bool;
  GLEW_VERSION_2_0 : bool
}.

Definition glewInit (g : Glew) : M bool :=
  emit glewInit_ev ;;; ret (glewInit_is_GLEW_OK g).

(** ** The callbacks *)

(** [ogl_init] *)
Definition ogl_init (g : Glew) : M unit :=
  p <- ms_new0 ;;
  ok <- glewInit g ;;
  (if negb ok then ms_error "glew init error"
   else if negb (GLEW_VERSION_2_0 g) then ms_error "glew 2.0 is required"
   else ret tt) ;;;
  h <- ogl_display_new ;;
  store p (set_display h) ;;;
  store p (set_show_video TRUE) ;;;
  modify (fun s => set_flt (mkFilter p (inputs (flt s))) s).

(** [ogl_uninit]: the block it works on is a new one, not [f->data]. *)
Definition ogl_uninit : M unit :=
  p <- ms_new0 ;;
  d <- load p ;;
  ogl_display_free (display d) ;;;
  ms_free p.

(** The guarded body of [ogl_process], between the test that jumps to [end]
    and the label. *)
Definition ogl_process_forward (p : option addr) : M unit :=
  in0 <- input 0 ;;
  match in0 with
  | None => ret tt
  | Some q =>
      match ms_queue_peek_last q with
      | None => ret tt
      | Some inm =>
          match ms_yuv_buf_init_from_mblk inm with
          | None => ret tt
          | Some src =>
              store p (set_video_size_width (MSPicture.w src)) ;;;
              store p (set_video_size_width (MSPicture.h src)) ;;;
              d <- load p ;;
              ogl_display_set_yuv_to_display (display d) inm ;;;
              d <- load p ;;
              if truth (mirroring d) && negb (mblk_get_precious_flag inm)
              then ms_yuv_buf_mirror src
              else ret tt
          end
      end
  end.

(** [ogl_process] *)
Definition ogl_process : M unit :=
  p <- gets (fun s => data (flt s)) ;;
  ms_filter_lock ;;;
  d <- load p ;;
  (if N.eqb (width (context_info d)) 0 || N.eqb (height (context_info d)) 0
      || negb (truth (show_video d))
   then ret tt
   else ogl_process_forward p) ;;;
  ms_filter_unlock ;;;
  in0 <- input 0 ;;
  (if in0 is Some _ then ms_queue_flush 0 else ret tt) ;;;
  in1 <- input 1 ;;
  (if in1 is Some _ then ms_queue_flush 1 else ret tt).

(** ** The methods *)

(** The casts of [void *arg]. *)
Definition as_video_size (arg : Arg) : M MSVideoSize.t :=
  match arg with ArgVideoSize vs => ret vs | _ => fault end.
Definition as_context_info_ptr (arg : Arg) : M (option ContextInfo) :=
  match arg with ArgWindowId ci => ret ci | _ => fault end.
Definition as_bool (arg : Arg) : M bool_t :=
  match arg with ArgBool b => ret b | _ => fault end.

Definition ogl_set_video_size (arg : Arg) : M Z :=
  p <- gets (fun s => data (flt s)) ;;
  ms_filter_lock ;;;
  vs <- as_video_size arg ;;
  store p (set_video_size vs) ;;;
  ms_filter_unlock ;;;
  ret 0.

Definition ogl_set_native_window_id (arg : Arg) : M Z :=
  p <- gets (fun s => data (flt s)) ;;
  context_info <- as_context_info_ptr arg ;;
  ms_filter_lock ;;;
  match context_info with
  | Some ci =>
      ms_message "set native window id: %p (width: %d, height: %d)\n" ;;;
      store p (set_context_info ci) ;;;
      d <- load p ;;
      ogl_display_init (display d) (width ci) (height ci)
  | None =>
      ms_message "reset native window id" ;;;
      store p (set_context_info (mkContextInfo 0 0))
  end ;;;
  ms_filter_unlock ;;;
  ret 0.

Definition ogl_get_native_window_id (arg : Arg) : M Z :=
  ret 0.

Definition ogl_show_video (arg : Arg) : M Z :=
  p <- gets (fun s => data (flt s)) ;;
  ms_filter_lock ;;;
  b <- as_bool arg ;;
  store p (set_show_video b) ;;;
  ms_filter_unlock ;;;
  ret 0.

(** [ogl_zoom]: the second lock operation is a lock, as in the source. *)
Definition ogl_zoom (arg : Arg) : M Z :=
  p <- gets (fun s => data (flt s)) ;;
  ms_filter_lock ;;;
  d <- load p ;;
  ogl_display_zoom (display d) arg ;;;
  ms_filter_lock ;;;
  ret 0.

(** [ogl_enable_mirroring]: likewise. *)
Definition ogl_enable_mirroring (arg : Arg) : M Z :=
  p <- gets (fun s => data (flt s)) ;;
  ms_filter_lock ;;;
  b <- as_bool arg ;;
  store p (set_mirroring b) ;;;
  ms_filter_lock ;;;
  ret 0.

Definition ogl_call_render (arg : Arg) : M Z :=
  p <- gets (fun s => data (flt s)) ;;
  ms_filter_lock ;;;
  d <- load p ;;
  (if N.ltb 0 (width (context_info d)) && N.ltb 0 (height (context_info d))
      && truth (show_video d)
   then ogl_display_render (display d) 0
   else ret tt) ;;;
  ms_filter_unlock ;;;
  ret 0.

(** The method identifiers of the host headers. *)
Inductive MethodId :=
| MS_FILTER_SET_VIDEO_SIZE
| MS_VIDEO_DISPLAY_SET_NATIVE_WINDOW_ID
| MS_VIDEO_DISPLAY_GET_NATIVE_WINDOW_ID
| MS_VIDEO_DISPLAY_SHOW_VIDEO
| MS_VIDEO_DISPLAY_ZOOM
| MS_VIDEO_DISPLAY_ENABLE_MIRRORING
| MS_VIDEO_DISPLAY_CALL_GENERIC_RENDER.

(** [methods], without its terminating null entry. *)
Definition methods : list (MethodId * (Arg -> M Z)) :=
  [ (MS_FILTER_SET_VIDEO_SIZE, ogl_set_video_size);
    (MS_VIDEO_DISPLAY_SET_NATIVE_WINDOW_ID, ogl_set_native_window_id);
    (MS_VIDEO_DISPLAY_GET_NATIVE_WINDOW_ID, ogl_get_native_window_id);
    (MS_VIDEO_DISPLAY_SHOW_VIDEO, ogl_show_video);
    (MS_VIDEO_DISPLAY_ZOOM, ogl_zoom);
    (MS_VIDEO_DISPLAY_ENABLE_MIRRORING, ogl_enable_mirroring);
    (MS_VIDEO_DISPLAY_CALL_GENERIC_RENDER, ogl_call_render) ].

(** [ms_ogl_desc].  Its [id] and [category] are constants of the host
    headers and play no part here. *)
Module MSFilterDesc.
Record t := mk {
  name : string;
  text : string;
  ninputs : nat;
  noutputs : nat;
  init : Glew -> M unit;
  process : M unit;
  uninit : M unit;
  methods : list (MethodId * (Arg -> M Z))
}.
End MSFilterDesc.

Definition ms_ogl_desc : MSFilterDesc.t :=
  {| MSFilterDesc.name := "MSOGL";
     MSFilterDesc.text := "A generic opengl video display";
     MSFilterDesc.ninputs := 2;
     MSFilterDesc.noutputs := 0;
     MSFilterDesc.init := ogl_init;
     MSFilterDesc.process := ogl_process;
     MSFilterDesc.uninit := ogl_uninit;
     MSFilterDesc.methods := methods |}.

(** ** What the callbacks do to an installed block

    [installed s a d]: the filter's [data] pointer is [a] and the block at
    [a] is live and holds [d].  The definitions below give, for such a
    state, the block and the output of each callback as plain functions of
    [d] and of the queues; the lemmas named [*_eq] show that the callbacks
    above compute exactly that. *)

Definition installed (s : State) (a : addr) (d : FilterData) : Prop :=
  data (flt s) = Some a /\ heap s !! a = Some (Some d).

Definition with_block (a : addr) (d : FilterData) (s : State) : State :=
  set_heap (<[a := Some d]> (heap s)) s.

(** The test of [ogl_process] that lets a frame through, and the test of
    [ogl_call_render]. *)
Definition process_gate (d : FilterData) : bool :=
  negb (N.eqb (width (context_info d)) 0 || N.eqb (height (context_info d)) 0
        || negb (truth (show_video d))).
Definition render_gate (d : FilterData) : bool :=
  N.ltb 0 (width (context_info d)) && N.ltb 0 (height (context_info d))
  && truth (show_video d).

Definition peek_frame (in0 : option MSQueue) : option (mblk_t * MSPicture.t) :=
  match in0 with
  | Some q =>
      match ms_queue_peek_last q with
      | Some inm =>
          match ms_yuv_buf_init_from_mblk inm with
          | Some src => Some (inm, src)
          | None => None
          end
      | None => None
      end
  | None => None
  end.

Definition frame_to_forward (d : FilterData) (in0 : option MSQueue)
  : option (mblk_t * MSPicture.t) :=
  if process_gate d then peek_frame in0 else None.

Definition process_data (d : FilterData) (in0 : option MSQueue) : FilterData :=
  match frame_to_forward d in0 with
  | Some (_, src) => set_video_size_width (MSPicture.h src) d
  | None => d
  end.

Definition process_events (d : FilterData) (in0 : option MSQueue) : list Event :=
  ms_filter_lock_ev ::
  match frame_to_forward d in0 with
  | Some (inm, src) =>
      ogl_display_set_yuv_to_display_ev (display d) inm ::
      (if truth (mirroring d) && negb (mblk_get_precious_flag inm)
       then [ms_yuv_buf_mirror_ev src] else [])
  | None => []
  end ++ [ms_filter_unlock_ev].

Definition flushed (q : option MSQueue) : option MSQueue :=
  match q with Some _ => Some [] | None => None end.

Definition render_events (d : FilterData) : list Event :=
  ms_filter_lock_ev ::
  (if render_gate d then [ogl_display_render_ev (display d) 0] else [])
  ++ [ms_filter_unlock_ev].

Definition probe_events (g : Glew) : list Event :=
  glewInit_ev ::
  (if negb (glewInit_is_GLEW_OK g) then [ms_error_ev "glew init error"]
   else if negb (GLEW_VERSION_2_0 g) then [ms_error_ev "glew 2.0 is required"]
   else []).

(** The block [ogl_init] installs. *)
Definition init_data (h : handle) : FilterData :=
  set_show_video TRUE (set_display (Some h) FilterData0).

(** ** The filter in use

    Between [ogl_init] and [ogl_uninit] the host drives the filter through
    [process] and the method table, while the upstream filter puts blocks on
    the input queues. *)

(** [ms_queue_put(f->inputs[i], m)], done by the upstream filter; an input
    that is not connected has no upstream. *)
Definition ms_queue_put (i : nat) (m : mblk_t) : M unit :=
  modify (fun s =>
    match inputs (flt s) !! i with
    | Some (Some q) =>
        set_flt (mkFilter (data (flt s)) (<[i := Some (q ++ [m])]> (inputs (flt s)))) s
    | _ => s
    end).

Inductive Op :=
| ProcessFrame
| SetVideoSize (vs : MSVideoSize.t)
| BindSurface (ci : option ContextInfo)
| QuerySurface (arg : Arg)
| SetVisible (b : bool_t)
| SetZoom (arg : Arg)
| SetMirroring (b : bool_t)
| Render (arg : Arg)
| Enqueue (i : nat) (m : mblk_t).

(** The callback behind each operation, with its status code. *)
Definition step (o : Op) : M Z :=
  match o with
  | ProcessFrame => ogl_process ;;; ret 0
  | SetVideoSize vs => ogl_set_video_size (ArgVideoSize vs)
  | BindSurface ci => ogl_set_native_window_id (ArgWindowId ci)
  | QuerySurface arg => ogl_get_native_window_id arg
  | SetVisible b => ogl_show_video (ArgBool b)
  | SetZoom arg => ogl_zoom arg
  | SetMirroring b => ogl_enable_mirroring (ArgBool b)
  | Render arg => ogl_call_render arg
  | Enqueue i m => ms_queue_put i m ;;; ret 0
  end.

(** A run keeps the output of each operation apart. *)
Fixpoint run (ops : list Op) (s : State) : option (State * list (Op * list Event)) :=
  match ops with
  | [] => Some (s, [])
  | o :: rest =>
      match step o s with
      | Some (_, s1, e) =>
          match run rest s1 with
          | Some (s2, tr) => Some (s2, (o, e) :: tr)
          | None => None
          end
      | None => None
      end
  end.

Definition rebinds (o : Op) : bool :=
  match o with BindSurface (Some _) => true | _ => false end.

Definition draws (o : Op) : bool :=
  match o with ProcessFrame | Render _ => true | _ => false end.

(** Which argument fits the cast a method makes. *)
Definition arg_fits (id : MethodId) (arg : Arg) : bool :=
  match id, arg with
  | MS_FILTER_SET_VIDEO_SIZE, ArgVideoSize _ => true
  | MS_FILTER_SET_VIDEO_SIZE, _ => false
  | MS_VIDEO_DISPLAY_SET_NATIVE_WINDOW_ID, ArgWindowId _ => true
  | MS_VIDEO_DISPLAY_SET_NATIVE_WINDOW_ID, _ => false
  | MS_VIDEO_DISPLAY_SHOW_VIDEO, ArgBool _ => true
  | MS_VIDEO_DISPLAY_SHOW_VIDEO, _ => false
  | MS_VIDEO_DISPLAY_ENABLE_MIRRORING, ArgBool _ => true
  | MS_VIDEO_DISPLAY_ENABLE_MIRRORING, _ => false
  | _, _ => true
  end.

(** ** Reading an output *)

Definition is_renderer_call (e : Event) : bool :=
  match e with
  | ogl_display_new_ev _ | ogl_display_free_ev _ | ogl_display_init_ev _ _ _
  | ogl_display_set_yuv_to_display_ev _ _ | ogl_display_zoom_ev _ _
  | ogl_display_render_ev _ _ => true
  | _ => false
  end.

Definition renderer_calls (e : list Event) : list Event :=
  List.filter is_renderer_call e.

(** The frames handed to [ogl_display_set_yuv_to_display], in order. *)
Fixpoint forwarded_frames (e : list Event) : list mblk_t :=
  match e with
  | [] => []
  | ogl_display_set_yuv_to_display_ev _ m :: r => m :: forwarded_frames r
  | _ :: r => forwarded_frames r
  end.

(** How many times [ogl_display_free] was called on handle [h]. *)
Fixpoint frees_of (h : handle) (e : list Event) : nat :=
  match e with
  | [] => 0%nat
  | ogl_display_free_ev (Some h') :: r =>
      ((if Nat.eqb h h' then 1 else 0) + frees_of h r)%nat
  | _ :: r => frees_of h r
  end.

(** Lock operations minus unlock operations. *)
Fixpoint lock_depth (e : list Event) : Z :=
  match e with
  | [] => 0
  | ms_filter_lock_ev :: r => lock_depth r + 1
  | ms_filter_unlock_ev :: r => lock_depth r - 1
  | _ :: r => lock_depth r
  end.

Definition is_error (e : Event) : bool :=
  match e with ms_error_ev _ => true | _ => false end.

(** ** Vocabulary of the specification *)

Definition bound (d : FilterData) : Prop :=
  width (context_info d) <> 0%N /\ height (context_info d) <> 0%N.

Definition visible (d : FilterData) : Prop := show_video d <> 0%N.

(** The stored context size is zero in both dimensions. *)
Definition unbound (d : FilterData) : Prop := context_info d = mkContextInfo 0 0.


Definition probe_failed (g : Glew) : bool :=
  negb (glewInit_is_GLEW_OK g) || negb (GLEW_VERSION_2_0 g).

(** Neither [process] nor the render method reaches the renderer. *)
Definition quiet (s : State) : Prop :=
  (exists s' e, ogl_process s = Some (tt, s', e) /\ renderer_calls e = []) /\
  (forall arg, exists s' e,
      ogl_call_render arg s = Some (0, s', e) /\ renderer_calls e = []).

(** The sentence on the status codes, read literally: every method of the
    table returns 0 on an initialised filter, whatever the argument. *)
Definition every_method_returns_0_for_every_input : Prop :=
  forall id m arg s a d,
    In (id, m) methods -> installed s a d ->
    exists s' e, m arg s = Some (0, s', e).

(** The methods that end on a lock operation where the others unlock. *)
Definition relocking (id : MethodId) : bool :=
  match id with
  | MS_VIDEO_DISPLAY_ZOOM | MS_VIDEO_DISPLAY_ENABLE_MIRRORING => true
  | _ => false
  end.

(** ** The mutex

    Modelled from the spec: [ms_filter_lock] and [ms_filter_unlock] are
    macros of the host headers over the mutex of the filter, which the
    specification describes as one mutual-exclusion lock per instance.  A
    lock operation on a free mutex takes it; an unlock operation frees it; a
    lock operation on a held mutex does not return while it is held, so with
    nobody left to release it the call stops there for good. *)

(** The mutex after an output, [held] being its state before; [None] when a
    lock operation of the output finds it held. *)
Fixpoint mutex_after (held : bool) (e : list Event) : option bool :=
  match e with
  | [] => Some held
  | ms_filter_lock_ev :: r => if held then None else mutex_after true r
  | ms_filter_unlock_ev :: r => mutex_after false r
  | _ :: r => mutex_after held r
  end.

(** The part of an output that is executed: all of it up to and including
    the lock operation that finds the mutex held, if there is one. *)
Fixpoint executed (held : bool) (e : list Event) : list Event :=
  match e with
  | [] => []
  | ms_filter_lock_ev :: r =>
      ms_filter_lock_ev :: (if held then [] else executed true r)
  | ms_filter_unlock_ev :: r => ms_filter_unlock_ev :: executed false r
  | ev :: r => ev :: executed held r
  end.

(** ** What an operation does to an installed block

    For a filter whose block [d] is installed and whose inputs are [ins]:
    the block, the inputs and the output after operation [o]. *)

Definition op_data (o : Op) (d : FilterData) (in0 : option MSQueue) : FilterData :=
  match o with
  | ProcessFrame => process_data d in0
  | SetVideoSize vs => set_video_size vs d
  | BindSurface (Some ci) => set_context_info ci d
  | BindSurface None => set_context_info (mkContextInfo 0 0) d
  | SetVisible b => set_show_video b d
  | SetMirroring b => set_mirroring b d
  | QuerySurface _ | SetZoom _ | Render _ | Enqueue _ _ => d
  end.

Definition op_inputs (o : Op) (ins : list (option MSQueue)) : list (option MSQueue) :=
  match o with
  | ProcessFrame => List.map flushed ins
  | Enqueue i m =>
      match ins !! i with
      | Some (Some q) => <[i := Some (q ++ [m])]> ins
      | _ => ins
      end
  | _ => ins
  end.

Definition op_events (o : Op) (d : FilterData) (in0 : option MSQueue) : list Event :=
  match o with
  | ProcessFrame => process_events d in0
  | SetVideoSize _ | SetVisible _ => [ms_filter_lock_ev; ms_filter_unlock_ev]
  | BindSurface (Some ci) =>
      [ms_filter_lock_ev;
       ms_message_ev "set native window id: %p (width: %d, height: %d)\n";
       ogl_display_init_ev (display d) (width ci) (height ci);
       ms_filter_unlock_ev]
  | BindSurface None =>
      [ms_filter_lock_ev; ms_message_ev "reset native window id";
       ms_filter_unlock_ev]
  | QuerySurface _ | Enqueue _ _ => []
  | SetZoom arg =>
      [ms_filter_lock_ev; ogl_display_zoom_ev (display d) arg; ms_filter_lock_ev]
  | SetMirroring _ => [ms_filter_lock_ev; ms_filter_lock_ev]
  | Render _ => render_events d
  end.

(** ** A filter to try things on

    One block at address 0 with a 640x480 context, visible, mirroring on;
    two frames waiting on the first input, the second input connected and
    empty. *)

Definition sample_data : FilterData :=
  set_mirroring TRUE (set_context_info (mkContextInfo 640 480) (init_data 0)).

Definition sample_frame (i : nat) : mblk_t := mkblk i (Some (640, 480)) false.

Definition sample_state : State :=
  mkState (mkFilter (Some 0%nat) [Some [sample_frame 1; sample_frame 2]; Some []])
          [Some sample_data] 1.

(** ** More readings of an output and of a run *)

(** The [display] argument of a renderer call that takes one. *)
Definition display_arg (e : Event) : option (option handle) :=
  match e with
  | ogl_display_free_ev d | ogl_display_init_ev d _ _
  | ogl_display_set_yuv_to_display_ev d _ | ogl_display_zoom_ev d _
  | ogl_display_render_ev d _ => Some d
  | _ => None
  end.

(** The operations whose callback ends on a lock operation. *)
Definition relocks (o : Op) : bool :=
  match o with SetZoom _ | SetMirroring _ => true | _ => false end.

(** The whole output of a run. *)
Definition run_output (tr : list (Op * list Event)) : list Event :=
  concat (List.map snd tr).

(** The calls an invocation makes, in order; nothing is recorded for one
    that faults. *)
Definition calls {A} (r : option (A * State * list Event)) : list Event :=
  match r with
  | Some (_, _, e) => e
  | None => []
  end.

(** The errors [ogl_init] logs for a probe outcome. *)
Definition probe_errors (g : Glew) : list Event :=
  if glewInit_is_GLEW_OK g
  then if GLEW_VERSION_2_0 g then [] else [ms_error_ev "glew 2.0 is required"]
  else [ms_error_ev "glew init error"].

(** A filter before [ogl_init]: no block, first input connected and empty. *)
Definition blank_state : State := mkState (mkFilter None [Some []; None]) [] 0.

(** ** Executing the callbacks symbolically *)

Lemma lookup_block_insert (hp : list (option FilterData)) a x y :
  hp !! a = Some x -> <[a := y]> hp !! a = Some y.
Proof. intros H. apply list_lookup_insert_eq. eapply lookup_lt_Some; eauto. Qed.

Lemma lookup_fresh_block (hp : list (option FilterData)) x :
  (hp ++ [x]) !! length hp = Some x.
Proof. apply list_lookup_middle. reflexivity. Qed.

Lemma insert_fresh_block (hp : list (option FilterData)) x y :
  <[length hp := y]> (hp ++ [x]) = hp ++ [y].
Proof.
  rewrite insert_app_r_alt by lia. rewrite Nat.sub_diag. reflexivity.
Qed.

Ltac heap_step :=
  match goal with
  | H : ?hp !! ?a = Some _ |- context [?hp !! ?a] => rewrite H
  | |- context [<[?a := ?y]> ?hp !! ?a] =>
      erewrite (lookup_block_insert hp a _ y);
      [| solve [eauto using lookup_block_insert]]
  | |- context [<[?a := _]> (<[?a := _]> _)] => rewrite list_insert_insert_eq
  | |- context [(?hp ++ [?x]) !! length ?hp] => rewrite (lookup_fresh_block hp x)
  | |- context [<[length ?hp := ?y]> (?hp ++ [?x])] =>
      rewrite (insert_fresh_block hp x y)
  | |- context [(?x :: ?l) !! 0%nat] => change ((x :: l) !! 0%nat) with (Some x)
  | |- context [(?x :: ?l) !! S ?n] => change ((x :: l) !! S n) with (l !! n)
  | |- context [<[0%nat := ?y]> (?x :: ?l)] =>
      change (<[0%nat := y]> (x :: l)) with (y :: l)
  | |- context [<[S ?n := ?y]> (?x :: ?l)] =>
      change (<[S n := y]> (x :: l)) with (x :: <[n := y]> l)
  end.

Ltac exec :=
  repeat (cbv beta iota zeta delta
            [bind ret emit gets modify fault load store set_heap set_flt heap flt
             data inputs next_display input ms_filter_lock ms_filter_unlock
             ms_message ms_error ms_queue_flush ms_new0 ms_free glewInit
             ogl_display_new
             ogl_display_init ogl_display_set_yuv_to_display ogl_display_zoom
             ogl_display_render ogl_display_free ms_yuv_buf_mirror
             as_video_size as_context_info_ptr as_bool];
          cbn [app negb glewInit_is_GLEW_OK GLEW_VERSION_2_0];
          try heap_step).

Ltac open_state s Hi Hin :=
  let p := fresh "p" in let ins := fresh "ins" in
  let Ha := fresh "Ha" in
  destruct s as [[p ins] ? ?]; destruct Hi as [Hi Ha];
  cbn [flt data inputs heap] in Hi, Ha, Hin |- *; subst p; try subst ins.

Lemma ogl_init_eq g s :
  ogl_init g s =
    Some (tt,
          mkState (mkFilter (Some (length (heap s))) (inputs (flt s)))
                  (heap s ++ [Some (init_data (next_display s))])
                  (S (next_display s)),
          probe_events g ++ [ogl_display_new_ev (next_display s)]).
Proof.
  destruct s as [[p ins] hp nd]. destruct g as [[|] [|]];
    unfold ogl_init, probe_events; exec; reflexivity.
Qed.

Lemma ogl_uninit_eq s :
  ogl_uninit s = Some (tt, set_heap (heap s ++ [None]) s, [ogl_display_free_ev None]).
Proof.
  destruct s as [[p ins] hp nd]. unfold ogl_uninit. exec. reflexivity.
Qed.

Lemma ogl_process_eq s a d i0 i1 :
  installed s a d -> inputs (flt s) = [i0; i1] ->
  ogl_process s =
    Some (tt,
          mkState (mkFilter (Some a) [flushed i0; flushed i1])
                  (<[a := Some (process_data d i0)]> (heap s)) (next_display s),
          process_events d i0).
Proof.
  intros Hi Hin. open_state s Hi Hin.
  unfold ogl_process, process_data, process_events, frame_to_forward, process_gate.
  exec.
  destruct (_ || _ || _) eqn:G; cbn [negb].
  - exec. rewrite list_insert_id by done. destruct i0, i1; exec; reflexivity.
  - unfold ogl_process_forward, peek_frame. exec.
    destruct i0 as [q|]; exec;
      [| rewrite list_insert_id by done; destruct i1; reflexivity].
    destruct (ms_queue_peek_last q) as [inm|]; exec;
      [| rewrite list_insert_id by done; destruct i1; reflexivity].
    destruct (ms_yuv_buf_init_from_mblk inm) as [src|]; exec;
      [| rewrite list_insert_id by done; destruct i1; reflexivity].
    cbn [mirroring set_video_size_width set_video_size display].
    destruct (truth (mirroring d) && negb (mblk_get_precious_flag inm));
      exec; destruct i1; exec; reflexivity.
Qed.

Ltac open_installed s Hi :=
  let p := fresh "p" in let ins := fresh "ins" in
  let Ha := fresh "Ha" in
  destruct s as [[p ins] ? ?]; destruct Hi as [Hi Ha];
  cbn [flt data inputs heap] in Hi, Ha |- *; subst p.

Lemma ogl_get_native_window_id_eq arg s :
  ogl_get_native_window_id arg s = Some (0, s, []).
Proof. reflexivity. Qed.

Section Methods.

Context {s : State} {a : addr} {d : FilterData}.
Hypothesis Hi : installed s a d.

Lemma ogl_set_video_size_eq vs :
  ogl_set_video_size (ArgVideoSize vs) s =
    Some (0, with_block a (set_video_size vs d) s,
          [ms_filter_lock_ev; ms_filter_unlock_ev]).
Proof.
  open_installed s Hi. unfold ogl_set_video_size, with_block. exec. reflexivity.
Qed.

Lemma ogl_set_native_window_id_bind_eq ci :
  ogl_set_native_window_id (ArgWindowId (Some ci)) s =
    Some (0, with_block a (set_context_info ci d) s,
          [ms_filter_lock_ev;
           ms_message_ev "set native window id: %p (width: %d, height: %d)\n";
           ogl_display_init_ev (display d) (width ci) (height ci);
           ms_filter_unlock_ev]).
Proof.
  open_installed s Hi. unfold ogl_set_native_window_id, with_block. exec.
  reflexivity.
Qed.

Lemma ogl_set_native_window_id_reset_eq :
  ogl_set_native_window_id (ArgWindowId None) s =
    Some (0, with_block a (set_context_info (mkContextInfo 0 0) d) s,
          [ms_filter_lock_ev; ms_message_ev "reset native window id";
           ms_filter_unlock_ev]).
Proof.
  open_installed s Hi. unfold ogl_set_native_window_id, with_block. exec.
  reflexivity.
Qed.

Lemma ogl_show_video_eq b :
  ogl_show_video (ArgBool b) s =
    Some (0, with_block a (set_show_video b d) s,
          [ms_filter_lock_ev; ms_filter_unlock_ev]).
Proof.
  open_installed s Hi. unfold ogl_show_video, with_block. exec. reflexivity.
Qed.

Lemma ogl_zoom_eq arg :
  ogl_zoom arg s =
    Some (0, s,
          [ms_filter_lock_ev; ogl_display_zoom_ev (display d) arg;
           ms_filter_lock_ev]).
Proof.
  open_installed s Hi. unfold ogl_zoom. exec. reflexivity.
Qed.

Lemma ogl_enable_mirroring_eq b :
  ogl_enable_mirroring (ArgBool b) s =
    Some (0, with_block a (set_mirroring b d) s,
          [ms_filter_lock_ev; ms_filter_lock_ev]).
Proof.
  open_installed s Hi. unfold ogl_enable_mirroring, with_block. exec. reflexivity.
Qed.

Lemma ogl_call_render_eq arg :
  ogl_call_render arg s = Some (0, s, render_events d).
Proof.
  open_installed s Hi. unfold ogl_call_render, render_events, render_gate.
  exec. destruct (_ && _ && _); exec; reflexivity.
Qed.

Lemma installed_with_block d' : installed (with_block a d' s) a d'.
Proof.
  destruct Hi as [Hp Ha]. split; [exact Hp |].
  cbn [with_block set_heap heap]. eauto using lookup_block_insert.
Qed.

End Methods.

Lemma ms_queue_put_eq i m s :
  ms_queue_put i m s =
    Some (tt, set_flt (mkFilter (data (flt s)) (op_inputs (Enqueue i m) (inputs (flt s)))) s,
          []).
Proof.
  destruct s as [[p ins] hp nd]. unfold ms_queue_put, modify, op_inputs.
  cbn [flt data inputs]. destruct (ins !! i) as [[q |] |]; reflexivity.
Qed.

(** Every operation returns 0 on an initialised filter with its two inputs,
    and does what [op_data], [op_inputs] and [op_events] say. *)
Lemma step_eq o s a d i0 i1 :
  installed s a d -> inputs (flt s) = [i0; i1] ->
  step o s =
    Some (0,
          mkState (mkFilter (Some a) (op_inputs o [i0; i1]))
                  (<[a := Some (op_data o d i0)]> (heap s)) (next_display s),
          op_events o d i0).
Proof.
  intros Hi Hin. pose proof Hi as [Hp Ha].
  destruct o as [| vs | [ci |] | arg | b | arg | b | arg | i m];
    cbn [step op_data op_inputs op_events].
  - unfold bind. rewrite (ogl_process_eq _ _ _ _ _ Hi Hin).
    cbn [ret]. rewrite app_nil_r. reflexivity.
  - rewrite (ogl_set_video_size_eq Hi _).
    destruct s as [[p ins] hp nd]; cbn in *; subst; reflexivity.
  - rewrite (ogl_set_native_window_id_bind_eq Hi _).
    destruct s as [[p ins] hp nd]; cbn in *; subst; reflexivity.
  - rewrite (ogl_set_native_window_id_reset_eq Hi).
    destruct s as [[p ins] hp nd]; cbn in *; subst; reflexivity.
  - rewrite ogl_get_native_window_id_eq, list_insert_id by exact Ha.
    destruct s as [[p ins] hp nd]; cbn in *; subst; reflexivity.
  - rewrite (ogl_show_video_eq Hi _).
    destruct s as [[p ins] hp nd]; cbn in *; subst; reflexivity.
  - rewrite (ogl_zoom_eq Hi _), list_insert_id by exact Ha.
    destruct s as [[p ins] hp nd]; cbn in *; subst; reflexivity.
  - rewrite (ogl_enable_mirroring_eq Hi _).
    destruct s as [[p ins] hp nd]; cbn in *; subst; reflexivity.
  - rewrite (ogl_call_render_eq Hi _), list_insert_id by exact Ha.
    destruct s as [[p ins] hp nd]; cbn in *; subst; reflexivity.
  - unfold bind. rewrite ms_queue_put_eq, list_insert_id by exact Ha.
    destruct s as [[p ins] hp nd]; cbn in *; subst; reflexivity.
Qed.

Lemma op_inputs_length o ins : length (op_inputs o ins) = length ins.
Proof.
  destruct o; cbn [op_inputs]; try reflexivity.
  - apply length_map.
  - destruct (ins !! i) as [[q |] |]; try reflexivity. apply length_insert.
Qed.

Lemma installed_after_step a d' f hp nd x :
  hp !! a = Some x ->
  installed (mkState (mkFilter (Some a) f) (<[a := Some d']> hp) nd) a d'.
Proof.
  intros H. split; [reflexivity |]. cbn [heap]. eauto using lookup_block_insert.
Qed.

Create HintDb ogl.
#[local] Hint Resolve installed_with_block installed_after_step
  lookup_block_insert : ogl.

(** ** The two gates *)

Lemma truth_true b : truth b = true <-> b <> 0%N.
Proof.
  unfold truth. rewrite negb_true_iff. apply N.eqb_neq.
Qed.

Lemma process_gate_true d : process_gate d = true <-> bound d /\ visible d.
Proof.
  unfold process_gate, bound, visible.
  rewrite negb_true_iff, !orb_false_iff, negb_false_iff, !N.eqb_neq, truth_true.
  tauto.
Qed.

Lemma render_gate_process_gate d : render_gate d = process_gate d.
Proof.
  unfold render_gate, process_gate.
  destruct (N.eqb_spec (width (context_info d)) 0) as [-> | Hw];
    destruct (N.eqb_spec (height (context_info d)) 0) as [-> | Hh];
    cbn [orb andb negb N.ltb N.compare]; try reflexivity.
  - destruct (N.ltb_spec 0 (width (context_info d))); [reflexivity | lia].
  - destruct (N.ltb_spec 0 (width (context_info d))); [| lia].
    destruct (N.ltb_spec 0 (height (context_info d))); [| lia].
    cbn [andb]. destruct (truth (show_video d)); reflexivity.
Qed.

Lemma process_gate_false d :
  process_gate d = false <->
  width (context_info d) = 0%N \/ height (context_info d) = 0%N \/ show_video d = 0%N.
Proof.
  unfold process_gate.
  rewrite negb_false_iff, !orb_true_iff, negb_true_iff, !N.eqb_eq.
  unfold truth. rewrite negb_false_iff, N.eqb_eq. tauto.
Qed.

Lemma process_events_gated d in0 :
  process_gate d = false ->
  process_events d in0 = [ms_filter_lock_ev; ms_filter_unlock_ev].
Proof.
  intros G. unfold process_events, frame_to_forward. rewrite G. reflexivity.
Qed.

Lemma render_events_gated d :
  process_gate d = false ->
  render_events d = [ms_filter_lock_ev; ms_filter_unlock_ev].
Proof.
  intros G. unfold render_events. rewrite render_gate_process_gate, G. reflexivity.
Qed.

(** ** Lifecycle *)

(** C1.  [ogl_init] followed at once by [ogl_uninit] does not fault, but the
    one call to [ogl_display_free] is made on the null [display] of a block
    [ogl_uninit] has just allocated: the handle [h] that [ogl_display_new]
    returned is freed zero times, and the block that holds it stays live
    behind [f->data]. *)
Theorem init_uninit_never_frees_display (g : Glew) (s : State) :
  exists s' e h a,
    (ogl_init g ;;; ogl_uninit) s = Some (tt, s', e) /\
    e = probe_events g ++ [ogl_display_new_ev h; ogl_display_free_ev None] /\
    frees_of h e = 0%nat /\
    data (flt s') = Some a /\
    heap s' !! a = Some (Some (init_data h)).
Proof.
  exists (set_heap ((heap s ++ [Some (init_data (next_display s))]) ++ [None])
            (mkState (mkFilter (Some (length (heap s))) (inputs (flt s)))
               (heap s ++ [Some (init_data (next_display s))])
               (S (next_display s)))).
  exists (probe_events g ++ [ogl_display_new_ev (next_display s); ogl_display_free_ev None]).
  exists (next_display s), (length (heap s)).
  split; [| split; [reflexivity | split; [| split; [reflexivity |]]]].
  - unfold bind at 1. rewrite ogl_init_eq, ogl_uninit_eq.
    rewrite <- app_assoc. reflexivity.
  - destruct g as [[|] [|]]; reflexivity.
  - cbn [set_heap heap]. rewrite lookup_app_l.
    + apply lookup_fresh_block.
    + rewrite length_app. cbn [length]. lia.
Qed.

(** ** Locking *)

(** C2.  On an initialised filter [ogl_zoom] and [ogl_enable_mirroring]
    return with two lock operations made and no unlock, where the sibling
    [ogl_show_video] returns with the lock released. *)
Theorem zoom_and_mirroring_return_locked (s : State) (a : addr) (d : FilterData)
    (arg : Arg) (b : bool_t) (Hi : installed s a d) :
  (exists s' e, ogl_zoom arg s = Some (0, s', e) /\
                lock_depth e = 2 /\ ~ In ms_filter_unlock_ev e) /\
  (exists s' e, ogl_enable_mirroring (ArgBool b) s = Some (0, s', e) /\
                lock_depth e = 2 /\ ~ In ms_filter_unlock_ev e) /\
  (exists s' e, ogl_show_video (ArgBool b) s = Some (0, s', e) /\
                lock_depth e = 0).
Proof.
  split; [| split].
  - eexists _, _. split; [apply (ogl_zoom_eq Hi _) |].
    split; [reflexivity |]. cbn [In]. intros [H | [H | [H | []]]]; discriminate.
  - eexists _, _. split; [apply (ogl_enable_mirroring_eq Hi _) |].
    split; [reflexivity |]. cbn [In]. intros [H | [H | []]]; discriminate.
  - eexists _, _. split; [apply (ogl_show_video_eq Hi _) |]. reflexivity.
Qed.

Lemma zoom_and_mirroring_return_locked_witness :
  (exists s' e, ogl_zoom (ArgOpaque 7)
                  (mkState (mkFilter (Some 0%nat) [Some []; None])
                           [Some (init_data 0)] 1) = Some (0, s', e) /\
                lock_depth e = 2 /\ ~ In ms_filter_unlock_ev e) /\
  (exists s' e, ogl_enable_mirroring (ArgBool TRUE)
                  (mkState (mkFilter (Some 0%nat) [Some []; None])
                           [Some (init_data 0)] 1) = Some (0, s', e) /\
                lock_depth e = 2 /\ ~ In ms_filter_unlock_ev e) /\
  (exists s' e, ogl_show_video (ArgBool TRUE)
                  (mkState (mkFilter (Some 0%nat) [Some []; None])
                           [Some (init_data 0)] 1) = Some (0, s', e) /\
                lock_depth e = 0).
Proof.
  apply (zoom_and_mirroring_return_locked _ 0%nat (init_data 0)).
  split; reflexivity.
Defined.

(** ** Frame processing *)

Lemma two_inputs (l : list (option (list mblk_t))) :
  length l = 2%nat -> exists i0 i1, l = [i0; i1].
Proof.
  destruct l as [| i0 [| i1 [| ? ?]]]; cbn [length]; intros H; try discriminate.
  eauto.
Qed.

Lemma frame_to_forward_Some d in0 inm src :
  frame_to_forward d in0 = Some (inm, src) ->
  process_gate d = true /\
  ms_yuv_buf_init_from_mblk inm = Some src /\
  exists q, in0 = Some q /\ ms_queue_peek_last q = Some inm.
Proof.
  unfold frame_to_forward, peek_frame.
  destruct (process_gate d); [| discriminate].
  destruct in0 as [q |]; [| discriminate].
  destruct (ms_queue_peek_last q) as [m |] eqn:L; [| discriminate].
  destruct (ms_yuv_buf_init_from_mblk m) as [p |] eqn:Y; [| discriminate].
  intros H. injection H as -> ->. eauto.
Qed.

Lemma frame_to_forward_last d q inm src :
  process_gate d = true ->
  ms_queue_peek_last q = Some inm ->
  ms_yuv_buf_init_from_mblk inm = Some src ->
  frame_to_forward d (Some q) = Some (inm, src).
Proof.
  intros G L Y. unfold frame_to_forward, peek_frame. rewrite G, L, Y. reflexivity.
Qed.

Lemma forwarded_frames_process d in0 :
  forwarded_frames (process_events d in0) =
    match frame_to_forward d in0 with
    | Some (inm, _) => [inm]
    | None => []
    end.
Proof.
  unfold process_events.
  destruct (frame_to_forward d in0) as [[inm src] |]; [| reflexivity].
  destruct (truth (mirroring d) && negb (mblk_get_precious_flag inm)); reflexivity.
Qed.

(** C3.  With the frames [F1; F2; F3] on the first input of a bound and
    visible filter ([F3] a frame: a block whose picture
    [ms_yuv_buf_init_from_mblk] finds), one [ogl_process] forwards exactly
    [F3] and leaves the queue empty. *)
Theorem last_of_three_forwarded (s : State) (a : addr) (d : FilterData)
    (F1 F2 F3 : mblk_t) (i1 : option MSQueue) (src : MSPicture.t)
    (Hi : installed s a d)
    (Hin : inputs (flt s) = [Some [F1; F2; F3]; i1])
    (Hb : bound d) (Hv : visible d)
    (Hyuv : ms_yuv_buf_init_from_mblk F3 = Some src) :
  exists s' e,
    ogl_process s = Some (tt, s', e) /\
    forwarded_frames e = [F3] /\
    inputs (flt s') !! 0%nat = Some (Some []).
Proof.
  eexists _, _. split; [apply (ogl_process_eq _ _ _ _ _ Hi Hin) |].
  split; [| reflexivity].
  rewrite forwarded_frames_process.
  rewrite (frame_to_forward_last d _ F3 src); try reflexivity; try assumption.
  apply process_gate_true. split; assumption.
Qed.

Lemma last_of_three_forwarded_witness :
  exists s' e,
    ogl_process
      (mkState (mkFilter (Some 0%nat)
                  [Some [mkblk 1 (Some (640, 480)) false;
                         mkblk 2 None false;
                         mkblk 3 (Some (320, 240)) true]; None])
               [Some (set_context_info (mkContextInfo 640 480) (init_data 0))] 1)
      = Some (tt, s', e) /\
    forwarded_frames e = [mkblk 3 (Some (320, 240)) true] /\
    inputs (flt s') !! 0%nat = Some (Some []).
Proof.
  apply (last_of_three_forwarded
           (mkState (mkFilter (Some 0%nat)
                       [Some [mkblk 1 (Some (640, 480)) false;
                              mkblk 2 None false;
                              mkblk 3 (Some (320, 240)) true]; None])
                    [Some (set_context_info (mkContextInfo 640 480) (init_data 0))] 1)
           0%nat
           (set_context_info (mkContextInfo 640 480) (init_data 0))
           (mkblk 1 (Some (640, 480)) false)
           (mkblk 2 None false)
           (mkblk 3 (Some (320, 240)) true)
           None (MSPicture.mk 320 240 3)).
  - split; reflexivity.
  - reflexivity.
  - split; discriminate.
  - discriminate.
  - reflexivity.
Defined.

Lemma renderer_calls_process d in0 :
  renderer_calls (process_events d in0) <> [] -> process_gate d = true.
Proof.
  destruct (process_gate d) eqn:G; [reflexivity |].
  rewrite process_events_gated by assumption. intros H. destruct H. reflexivity.
Qed.

Lemma renderer_calls_render d :
  renderer_calls (render_events d) <> [] -> process_gate d = true.
Proof.
  destruct (process_gate d) eqn:G; [reflexivity |].
  rewrite render_events_gated by assumption. intros H. destruct H. reflexivity.
Qed.

Lemma quiet_when_gated s a d :
  installed s a d -> length (inputs (flt s)) = 2%nat ->
  process_gate d = false -> quiet s.
Proof.
  intros Hi Hin G. destruct (two_inputs _ Hin) as (i0 & i1 & Hins). split.
  - eexists _, _. split; [apply (ogl_process_eq _ _ _ _ _ Hi Hins) |].
    rewrite process_events_gated by assumption. reflexivity.
  - intros arg. eexists _, _. split; [apply (ogl_call_render_eq Hi _) |].
    rewrite render_events_gated by assumption. reflexivity.
Qed.

(** C4.  On an initialised filter, [ogl_process] and [ogl_call_render]
    return, and their output holds a renderer call only if the context
    width and height are both nonzero and [show_video] is set.  In
    particular binding a context of zero width or height, unbinding, and
    [ogl_show_video] with false each leave a filter on which neither of the
    two reaches the renderer. *)
Theorem renderer_only_when_bound_and_visible (s : State) (a : addr)
    (d : FilterData) (Hi : installed s a d)
    (Hin : length (inputs (flt s)) = MSFilterDesc.ninputs ms_ogl_desc) :
  (exists s' e, ogl_process s = Some (tt, s', e) /\
                (renderer_calls e <> [] -> bound d /\ visible d)) /\
  (forall arg, exists s' e, ogl_call_render arg s = Some (0, s', e) /\
                (renderer_calls e <> [] -> bound d /\ visible d)) /\
  (forall ci, width ci = 0%N \/ height ci = 0%N ->
     exists s1 e1, ogl_set_native_window_id (ArgWindowId (Some ci)) s = Some (0, s1, e1) /\
                   quiet s1) /\
  (exists s1 e1, ogl_set_native_window_id (ArgWindowId None) s = Some (0, s1, e1) /\
                 quiet s1) /\
  (exists s1 e1, ogl_show_video (ArgBool FALSE) s = Some (0, s1, e1) /\ quiet s1).
Proof.
  destruct (two_inputs _ Hin) as (i0 & i1 & Hins).
  split; [| split; [| split; [| split]]].
  - eexists _, _. split; [apply (ogl_process_eq _ _ _ _ _ Hi Hins) |].
    intros H. apply process_gate_true. eapply renderer_calls_process; eauto.
  - intros arg. eexists _, _. split; [apply (ogl_call_render_eq Hi _) |].
    intros H. apply process_gate_true. eapply renderer_calls_render; eauto.
  - intros ci Hz. eexists _, _.
    split; [apply (ogl_set_native_window_id_bind_eq Hi _) |].
    eapply quiet_when_gated;
      [eauto with ogl | exact Hin |].
    apply process_gate_false. cbn [set_context_info context_info]. tauto.
  - eexists _, _.
    split; [apply (ogl_set_native_window_id_reset_eq Hi) |].
    eapply quiet_when_gated;
      [eauto with ogl | exact Hin |].
    apply process_gate_false. cbn [set_context_info context_info width]. tauto.
  - eexists _, _. split; [apply (ogl_show_video_eq Hi _) |].
    eapply quiet_when_gated;
      [eauto with ogl | exact Hin |].
    apply process_gate_false. cbn [set_show_video show_video]. tauto.
Qed.

Lemma renderer_only_when_bound_and_visible_witness :
  exists s' e, ogl_process sample_state = Some (tt, s', e) /\
               (renderer_calls e <> [] -> bound sample_data /\ visible sample_data).
Proof.
  pose proof (renderer_only_when_bound_and_visible sample_state 0%nat sample_data
                (conj eq_refl eq_refl) eq_refl) as [H _].
  exact H.
Defined.

Lemma in_process_events_yuv d in0 disp m :
  In (ogl_display_set_yuv_to_display_ev disp m) (process_events d in0) ->
  exists src, frame_to_forward d in0 = Some (m, src).
Proof.
  unfold process_events.
  destruct (frame_to_forward d in0) as [[inm src] |].
  - destruct (truth (mirroring d) && negb (mblk_get_precious_flag inm));
      cbn [app In]; intros H; exists src;
      repeat (destruct H as [H | H]; try discriminate H; try contradiction);
      injection H as _ <-; reflexivity.
  - cbn [app In]. intros H.
    repeat (destruct H as [H | H]; try discriminate H; try contradiction).
Qed.

Lemma in_process_events_mirror d in0 pic :
  In (ms_yuv_buf_mirror_ev pic) (process_events d in0) <->
  exists inm, frame_to_forward d in0 = Some (inm, pic) /\
              truth (mirroring d) && negb (mblk_get_precious_flag inm) = true.
Proof.
  unfold process_events.
  destruct (frame_to_forward d in0) as [[inm src] |].
  - destruct (truth (mirroring d) && negb (mblk_get_precious_flag inm)) eqn:C;
      cbn [app In]; split.
    + intros H.
      repeat (destruct H as [H | H]; try discriminate H; try contradiction).
      injection H as <-. exists inm. split; [reflexivity | exact C].
    + intros (inm' & H & _). injection H as _ <-. right. right. left. reflexivity.
    + intros H.
      repeat (destruct H as [H | H]; try discriminate H; try contradiction).
    + intros (inm' & H & C'). injection H as <- _. rewrite C in C'. discriminate C'.
  - cbn [app In]. split.
    + intros H.
      repeat (destruct H as [H | H]; try discriminate H; try contradiction).
    + intros (inm' & H & _). discriminate H.
Qed.

(** C5.  Whenever [ogl_process] hands a frame to the renderer, the output
    holds a call of [ms_yuv_buf_mirror] on the picture of that frame if and
    only if [mirroring] is set and the frame is not precious; no other
    picture is mirrored. *)
Theorem mirror_iff_mirroring_and_not_precious (s : State) (a : addr)
    (d : FilterData) (Hi : installed s a d)
    (Hin : length (inputs (flt s)) = MSFilterDesc.ninputs ms_ogl_desc) :
  exists s' e,
    ogl_process s = Some (tt, s', e) /\
    forall disp m, In (ogl_display_set_yuv_to_display_ev disp m) e ->
      exists src,
        ms_yuv_buf_init_from_mblk m = Some src /\
        (In (ms_yuv_buf_mirror_ev src) e <->
           mirroring d <> 0%N /\ mblk_get_precious_flag m = false) /\
        (forall pic, In (ms_yuv_buf_mirror_ev pic) e -> pic = src).
Proof.
  destruct (two_inputs _ Hin) as (i0 & i1 & Hins).
  eexists _, _. split; [apply (ogl_process_eq _ _ _ _ _ Hi Hins) |].
  intros disp m Hm.
  destruct (in_process_events_yuv _ _ _ _ Hm) as (src & F).
  destruct (frame_to_forward_Some _ _ _ _ F) as (_ & Y & _).
  exists src. split; [exact Y |]. split.
  - rewrite in_process_events_mirror, F, <- truth_true. split.
    + intros (inm & E & C). injection E as <-.
      apply andb_true_iff in C. rewrite negb_true_iff in C. exact C.
    + intros [Tm Pm]. exists m. split; [reflexivity |].
      rewrite Tm, Pm. reflexivity.
  - intros pic Hp. apply in_process_events_mirror in Hp.
    destruct Hp as (inm & E & _). rewrite F in E. injection E as _ <-. reflexivity.
Qed.

Lemma mirror_iff_mirroring_and_not_precious_witness :
  exists s' e,
    ogl_process sample_state = Some (tt, s', e) /\
    forall disp m, In (ogl_display_set_yuv_to_display_ev disp m) e ->
      exists src,
        ms_yuv_buf_init_from_mblk m = Some src /\
        (In (ms_yuv_buf_mirror_ev src) e <->
           mirroring sample_data <> 0%N /\ mblk_get_precious_flag m = false) /\
        (forall pic, In (ms_yuv_buf_mirror_ev pic) e -> pic = src).
Proof.
  apply (mirror_iff_mirroring_and_not_precious sample_state 0%nat sample_data).
  - split; reflexivity.
  - reflexivity.
Defined.

(** C6.  Whatever the block holds, [ogl_process] returns with every
    connected input among the two empty; an input that is not connected
    stays so. *)
Theorem process_drains_both_inputs (s : State) (a : addr) (d : FilterData)
    (Hi : installed s a d) (Hin : length (inputs (flt s)) = MSFilterDesc.ninputs ms_ogl_desc) :
  exists s' e,
    ogl_process s = Some (tt, s', e) /\
    length (inputs (flt s')) = MSFilterDesc.ninputs ms_ogl_desc /\
    forall i, (i < MSFilterDesc.ninputs ms_ogl_desc)%nat ->
      (forall q, inputs (flt s) !! i = Some (Some q) ->
                 inputs (flt s') !! i = Some (Some [])) /\
      (inputs (flt s) !! i = Some None -> inputs (flt s') !! i = Some None).
Proof.
  destruct (two_inputs _ Hin) as (i0 & i1 & Hins).
  eexists _, _. split; [apply (ogl_process_eq _ _ _ _ _ Hi Hins) |].
  split; [reflexivity |]. rewrite Hins. cbn [flt inputs].
  intros [| [| i]] Hlt; cbn in Hlt; try lia.
  - destruct i0; split; intros; simplify_eq/=; reflexivity.
  - destruct i1; split; intros; simplify_eq/=; reflexivity.
Qed.

Lemma process_drains_both_inputs_witness :
  exists s' e,
    ogl_process sample_state = Some (tt, s', e) /\
    length (inputs (flt s')) = MSFilterDesc.ninputs ms_ogl_desc /\
    forall i, (i < MSFilterDesc.ninputs ms_ogl_desc)%nat ->
      (forall q, inputs (flt sample_state) !! i = Some (Some q) ->
                 inputs (flt s') !! i = Some (Some [])) /\
      (inputs (flt sample_state) !! i = Some None -> inputs (flt s') !! i = Some None).
Proof.
  apply (process_drains_both_inputs sample_state 0%nat sample_data).
  - split; reflexivity.
  - reflexivity.
Defined.

(** ** Unbinding *)

Lemma unbound_gate d : unbound d -> process_gate d = false.
Proof.
  intros U. apply process_gate_false. left. rewrite U. reflexivity.
Qed.

Lemma op_data_unbound o d in0 :
  rebinds o = false -> unbound d -> unbound (op_data o d in0).
Proof.
  unfold unbound. destruct o as [| vs | [ci |] | arg | b | arg | b | arg | i m];
    cbn [rebinds op_data]; intros R U; try discriminate R; try exact U;
    try reflexivity.
  unfold process_data. destruct (frame_to_forward d in0) as [[inm src] |]; exact U.
Qed.

Lemma op_events_unbound o d in0 :
  unbound d -> draws o = true -> renderer_calls (op_events o d in0) = [].
Proof.
  intros U. pose proof (unbound_gate _ U) as G.
  destruct o; cbn [draws op_events]; intros D; try discriminate D.
  - rewrite process_events_gated by exact G. reflexivity.
  - rewrite render_events_gated by exact G. reflexivity.
Qed.

Lemma run_unbound ops :
  forall s a d,
    installed s a d -> length (inputs (flt s)) = 2%nat -> unbound d ->
    forallb (fun o => negb (rebinds o)) ops = true ->
    exists s' tr,
      run ops s = Some (s', tr) /\
      List.map fst tr = ops /\
      Forall (fun oe => draws (fst oe) = true -> renderer_calls (snd oe) = []) tr.
Proof.
  induction ops as [| o ops IH]; intros s a d Hi Hin U Hops.
  - exists s, []. repeat split; constructor.
  - cbn [forallb] in Hops. apply andb_true_iff in Hops as [Ho Hrest].
    apply negb_true_iff in Ho.
    destruct (two_inputs _ Hin) as (i0 & i1 & Hins).
    pose proof Hi as [_ Ha].
    destruct (IH (mkState (mkFilter (Some a) (op_inputs o [i0; i1]))
                    (<[a := Some (op_data o d i0)]> (heap s)) (next_display s))
                 a (op_data o d i0)) as (s' & tr & Hrun & Hmap & Hq).
    + eapply installed_after_step; eauto.
    + cbn [flt inputs]. rewrite op_inputs_length. reflexivity.
    + apply op_data_unbound; assumption.
    + exact Hrest.
    + exists s', ((o, op_events o d i0) :: tr).
      cbn [run]. rewrite (step_eq _ _ _ _ _ _ Hi Hins), Hrun.
      split; [reflexivity |]. split; [cbn [List.map fst]; congruence |].
      constructor; [| exact Hq]. cbn [fst snd]. apply op_events_unbound. exact U.
Qed.

(** C7.  [ogl_set_native_window_id] on a null context pointer stores a
    context of width 0 and height 0; from there, through any sequence of
    operations without a binding to a non-null context, every [ogl_process]
    and every [ogl_call_render] returns without a call to the renderer. *)
Theorem unbind_silences_until_rebound (s : State) (a : addr) (d : FilterData)
    (ops : list Op) (Hi : installed s a d)
    (Hin : length (inputs (flt s)) = MSFilterDesc.ninputs ms_ogl_desc)
    (Hops : forallb (fun o => negb (rebinds o)) ops = true) :
  exists s1 e1 d1,
    ogl_set_native_window_id (ArgWindowId None) s = Some (0, s1, e1) /\
    installed s1 a d1 /\
    width (context_info d1) = 0%N /\ height (context_info d1) = 0%N /\
    exists s' tr,
      run ops s1 = Some (s', tr) /\
      List.map fst tr = ops /\
      Forall (fun oe => draws (fst oe) = true -> renderer_calls (snd oe) = []) tr.
Proof.
  eexists _, _, _.
  split; [apply (ogl_set_native_window_id_reset_eq Hi) |].
  split; [eauto with ogl |].
  split; [reflexivity |]. split; [reflexivity |].
  eapply run_unbound.
  - eauto with ogl.
  - exact Hin.
  - reflexivity.
  - exact Hops.
Qed.

Lemma unbind_silences_until_rebound_witness :
  exists s1 e1 d1,
    ogl_set_native_window_id (ArgWindowId None) sample_state = Some (0, s1, e1) /\
    installed s1 0%nat d1 /\
    width (context_info d1) = 0%N /\ height (context_info d1) = 0%N /\
    exists s' tr,
      run [Enqueue 0 (sample_frame 3); ProcessFrame; SetVisible TRUE;
           Render (ArgOpaque 0); SetZoom (ArgOpaque 7); ProcessFrame] s1
        = Some (s', tr) /\
      List.map fst tr =
        [Enqueue 0 (sample_frame 3); ProcessFrame; SetVisible TRUE;
         Render (ArgOpaque 0); SetZoom (ArgOpaque 7); ProcessFrame] /\
      Forall (fun oe => draws (fst oe) = true -> renderer_calls (snd oe) = []) tr.
Proof.
  apply (unbind_silences_until_rebound sample_state 0%nat sample_data).
  - split; reflexivity.
  - reflexivity.
  - reflexivity.
Defined.

(** ** The frame size bookkeeping *)

Lemma op_events_video_size o v d in0 :
  op_events o (set_video_size v d) in0 = op_events o d in0.
Proof. destruct o as [| vs | [ci |] | arg | b | arg | b | arg | i m]; reflexivity. Qed.

Lemma op_data_video_size o v d in0 :
  op_data o (set_video_size v d) in0 =
    set_video_size (video_size (op_data o (set_video_size v d) in0)) (op_data o d in0).
Proof.
  destruct o as [| vs | [ci |] | arg | b | arg | b | arg | i m];
    cbn [op_data]; try reflexivity.
  unfold process_data.
  change (frame_to_forward (set_video_size v d) in0) with (frame_to_forward d in0).
  destruct (frame_to_forward d in0) as [[inm src] |]; reflexivity.
Qed.

(** C8.  When [ogl_process] forwards a frame, [video_size.width] ends equal
    to the height of the frame and [video_size.height] keeps its value.
    And [video_size] decides nothing: started from the same filter with any
    other [video_size], every operation returns the same status with the
    same output, and the two resulting filters differ at most in
    [video_size]. *)
Theorem video_size_is_dead_state (s : State) (a : addr) (d : FilterData)
    (Hi : installed s a d) (Hin : length (inputs (flt s)) = MSFilterDesc.ninputs ms_ogl_desc) :
  (exists s' e d',
     ogl_process s = Some (tt, s', e) /\
     installed s' a d' /\
     forall disp m, In (ogl_display_set_yuv_to_display_ev disp m) e ->
       exists src,
         ms_yuv_buf_init_from_mblk m = Some src /\
         MSVideoSize.width (video_size d') = MSPicture.h src /\
         MSVideoSize.height (video_size d') = MSVideoSize.height (video_size d)) /\
  (forall o v, exists s1 s2 e d1 v',
     step o s = Some (0, s1, e) /\
     step o (with_block a (set_video_size v d) s) = Some (0, s2, e) /\
     installed s1 a d1 /\
     s2 = with_block a (set_video_size v' d1) s1).
Proof.
  destruct (two_inputs _ Hin) as (i0 & i1 & Hins). pose proof Hi as [_ Ha].
  split.
  - eexists _, _, _. split; [apply (ogl_process_eq _ _ _ _ _ Hi Hins) |].
    split; [eauto with ogl |].
    intros disp m Hm.
    destruct (in_process_events_yuv _ _ _ _ Hm) as (src & F).
    destruct (frame_to_forward_Some _ _ _ _ F) as (_ & Y & _).
    exists src. split; [exact Y |].
    unfold process_data. rewrite F. split; reflexivity.
  - intros o v. eexists _, _, _, _, _.
    split; [apply (step_eq _ _ _ _ _ _ Hi Hins) |].
    split; [| split; [eauto with ogl |]].
    + rewrite (step_eq o _ a (set_video_size v d) i0 i1);
        [| eauto with ogl | exact Hins].
      rewrite op_events_video_size. reflexivity.
    + unfold with_block, set_heap. cbn [heap flt next_display].
      rewrite !list_insert_insert_eq, op_data_video_size. reflexivity.
Qed.

Lemma video_size_is_dead_state_witness :
  exists s1 s2 e d1 v',
    step ProcessFrame sample_state = Some (0, s1, e) /\
    step ProcessFrame
         (with_block 0%nat (set_video_size (MSVideoSize.mk 1 2) sample_data) sample_state)
      = Some (0, s2, e) /\
    installed s1 0%nat d1 /\
    s2 = with_block 0%nat (set_video_size v' d1) s1.
Proof.
  pose proof (video_size_is_dead_state sample_state 0%nat sample_data
                (conj eq_refl eq_refl) eq_refl) as [_ H].
  exact (H ProcessFrame (MSVideoSize.mk 1 2)).
Defined.

(** ** Failures and status codes *)

Lemma render_events_no_error d : existsb is_error (render_events d) = false.
Proof. unfold render_events. destruct (render_gate d); reflexivity. Qed.

Lemma process_events_no_error d in0 : existsb is_error (process_events d in0) = false.
Proof.
  unfold process_events. destruct (frame_to_forward d in0) as [[inm src] |];
    [| reflexivity].
  destruct (truth (mirroring d) && negb (mblk_get_precious_flag inm)); reflexivity.
Qed.

Lemma render_events_mutex d : mutex_after false (render_events d) = Some false.
Proof. unfold render_events. destruct (render_gate d); reflexivity. Qed.

Lemma process_events_mutex d in0 :
  mutex_after false (process_events d in0) = Some false.
Proof.
  unfold process_events. destruct (frame_to_forward d in0) as [[inm src] |];
    [| reflexivity].
  destruct (truth (mirroring d) && negb (mblk_get_precious_flag inm)); reflexivity.
Qed.

Lemma unlocking_methods_return_0 id m arg s a d :
  In (id, m) methods -> relocking id = false -> arg_fits id arg = true ->
  installed s a d ->
  exists s' e d',
    m arg s = Some (0, s', e) /\ installed s' a d' /\
    existsb is_error e = false /\ mutex_after false e = Some false.
Proof.
  intros Hm Hre Hfit Hi. cbn [methods In] in Hm.
  destruct Hm as [Hm | [Hm | [Hm | [Hm | [Hm | [Hm | [Hm | []]]]]]]];
    injection Hm as <- <-; try discriminate Hre.
  - destruct arg as [vs | | | |]; try discriminate Hfit.
    eexists _, _, _. split; [apply (ogl_set_video_size_eq Hi _) |].
    split; [eauto with ogl | split; reflexivity].
  - destruct arg as [| [ci |] | | |]; try discriminate Hfit; eexists _, _, _.
    + split; [apply (ogl_set_native_window_id_bind_eq Hi _) |].
      split; [eauto with ogl | split; reflexivity].
    + split; [apply (ogl_set_native_window_id_reset_eq Hi) |].
      split; [eauto with ogl | split; reflexivity].
  - eexists _, _, _. split; [apply ogl_get_native_window_id_eq |].
    split; [exact Hi | split; reflexivity].
  - destruct arg as [| | b | |]; try discriminate Hfit.
    eexists _, _, _. split; [apply (ogl_show_video_eq Hi _) |].
    split; [eauto with ogl | split; reflexivity].
  - eexists _, _, _. split; [apply (ogl_call_render_eq Hi _) |].
    split; [exact Hi |].
    split; [apply render_events_no_error | apply render_events_mutex].
Qed.

(** C9, as the sentence reads, fails: no method checks its argument, and
    [ogl_show_video] on a null argument reads through it and faults. *)
Lemma every_method_returns_0_for_every_input_fails :
  ~ every_method_returns_0_for_every_input.
Proof.
  intros H.
  destruct (H MS_VIDEO_DISPLAY_SHOW_VIDEO ogl_show_video ArgNull
              sample_state 0%nat sample_data)
    as (s' & e & Hrun).
  - cbn [methods In]. right. right. right. left. reflexivity.
  - split; reflexivity.
  - discriminate Hrun.
Qed.

(** C9, amended.  When the GLEW probe fails, [ogl_init] logs an error and
    goes on: it returns with a block installed that holds the handle
    returned by [ogl_display_new] and has [show_video] set.  On that block,
    whatever it holds later, every method of the table that unlocks what it
    locks (all but [ogl_zoom] and [ogl_enable_mirroring]) returns 0 for
    every argument that is not null and fits its cast, logs no error,
    leaves the block installed and the mutex free; [ogl_process] logs no
    error either. *)
Theorem probe_failure_swallowed_unlocking_methods_return_0 (g : Glew)
    (s0 : State) (Hfail : probe_failed g = true) :
  exists s1 e1 a h,
    ogl_init g s0 = Some (tt, s1, e1) /\
    installed s1 a (init_data h) /\
    display (init_data h) = Some h /\ show_video (init_data h) = TRUE /\
    In (ogl_display_new_ev h) e1 /\
    (exists msg, In (ms_error_ev msg) e1) /\
    (forall id m arg s d,
       In (id, m) methods -> relocking id = false -> arg_fits id arg = true ->
       installed s a d ->
       exists s' e d',
         m arg s = Some (0, s', e) /\
         installed s' a d' /\
         existsb is_error e = false /\
         mutex_after false e = Some false) /\
    (forall s d,
       installed s a d -> length (inputs (flt s)) = MSFilterDesc.ninputs ms_ogl_desc ->
       exists s' e, ogl_process s = Some (tt, s', e) /\ existsb is_error e = false /\
                    mutex_after false e = Some false).
Proof.
  eexists _, _, _, _. split; [apply ogl_init_eq |].
  split; [split; [reflexivity | apply lookup_fresh_block] |].
  split; [reflexivity |]. split; [reflexivity |].
  split; [apply in_or_app; right; left; reflexivity |].
  split.
  - unfold probe_events, probe_failed in *.
    destruct g as [[|] [|]]; cbn in Hfail |- *; try discriminate Hfail; eauto.
  - split; [intros id m arg s d; apply unlocking_methods_return_0 |].
    intros s d Hi Hin. destruct (two_inputs _ Hin) as (i0 & i1 & Hins).
    eexists _, _. split; [apply (ogl_process_eq _ _ _ _ _ Hi Hins) |].
    split; [apply process_events_no_error | apply process_events_mutex].
Qed.

Lemma probe_failure_swallowed_unlocking_methods_return_0_witness :
  exists s1 e1 a h,
    ogl_init (mkGlew false false) (mkState (mkFilter None [Some []; None]) [] 0)
      = Some (tt, s1, e1) /\
    installed s1 a (init_data h) /\
    display (init_data h) = Some h /\ show_video (init_data h) = TRUE /\
    In (ogl_display_new_ev h) e1 /\
    (exists msg, In (ms_error_ev msg) e1) /\
    (forall id m arg s d,
       In (id, m) methods -> relocking id = false -> arg_fits id arg = true ->
       installed s a d ->
       exists s' e d',
         m arg s = Some (0, s', e) /\
         installed s' a d' /\
         existsb is_error e = false /\
         mutex_after false e = Some false) /\
    (forall s d,
       installed s a d -> length (inputs (flt s)) = MSFilterDesc.ninputs ms_ogl_desc ->
       exists s' e, ogl_process s = Some (tt, s', e) /\ existsb is_error e = false /\
                    mutex_after false e = Some false).
Proof.
  apply (probe_failure_swallowed_unlocking_methods_return_0 (mkGlew false false)).
  reflexivity.
Defined.

(** ** Binding *)

(** C10.  For every non-null context, zero-sized or not,
    [ogl_set_native_window_id] stores it as [context_info] and makes exactly
    one renderer call, [ogl_display_init] with the width and the height of
    that context. *)
Theorem bind_stores_and_inits_any_size (s : State) (a : addr) (d : FilterData)
    (ci : ContextInfo) (Hi : installed s a d) :
  exists s' e d',
    ogl_set_native_window_id (ArgWindowId (Some ci)) s = Some (0, s', e) /\
    installed s' a d' /\
    context_info d' = ci /\
    renderer_calls e = [ogl_display_init_ev (display d) (width ci) (height ci)].
Proof.
  eexists _, _, _.
  split; [apply (ogl_set_native_window_id_bind_eq Hi _) |].
  split; [eauto with ogl |].
  split; reflexivity.
Qed.

Lemma bind_stores_and_inits_any_size_witness :
  exists s' e d',
    ogl_set_native_window_id (ArgWindowId (Some (mkContextInfo 0 480))) sample_state
      = Some (0, s', e) /\
    installed s' 0%nat d' /\
    context_info d' = mkContextInfo 0 480 /\
    renderer_calls e = [ogl_display_init_ev (display sample_data) 0 480].
Proof.
  apply (bind_stores_and_inits_any_size sample_state 0%nat sample_data).
  split; reflexivity.
Defined.

(** * Further properties of the callbacks *)

(** ** Rendering on request *)



(** ** Which frame is forwarded *)

Lemma peek_last_snoc (q : list mblk_t) m : ms_queue_peek_last (q ++ [m]) = Some m.
Proof. apply last_snoc. Qed.

Lemma frame_to_forward_flushed d in0 : frame_to_forward d (flushed in0) = None.
Proof.
  unfold frame_to_forward. destruct (process_gate d); [| reflexivity].
  destruct in0; reflexivity.
Qed.

(** X2.  Whatever the length of the first queue, a bound and visible filter
    forwards exactly its last block, if [ms_yuv_buf_init_from_mblk] accepts
    it: the one renderer call of [ogl_process] is
    [ogl_display_set_yuv_to_display] on the installed handle with that
    block, the older blocks are dropped unseen, and [video_size] ends as
    (height of the frame, old height). *)
Theorem process_forwards_last_of_any_queue (s : State) (a : addr)
    (d : FilterData) (q : MSQueue) (m : mblk_t) (i1 : option MSQueue)
    (src : MSPicture.t)
    (Hi : installed s a d)
    (Hin : inputs (flt s) = [Some (q ++ [m]); i1])
    (Hb : bound d) (Hv : visible d)
    (Hyuv : ms_yuv_buf_init_from_mblk m = Some src) :
  exists s' e d',
    ogl_process s = Some (tt, s', e) /\
    renderer_calls e = [ogl_display_set_yuv_to_display_ev (display d) m] /\
    lock_depth e = 0 /\
    installed s' a d' /\
    video_size d' =
      MSVideoSize.mk (MSPicture.h src) (MSVideoSize.height (video_size d)) /\
    inputs (flt s') = [Some []; flushed i1].
Proof.
  pose proof Hi as [_ Ha].
  assert (F : frame_to_forward d (Some (q ++ [m])) = Some (m, src)).
  { apply frame_to_forward_last; [| apply peek_last_snoc | exact Hyuv].
    apply process_gate_true. split; assumption. }
  eexists _, _, _. split; [apply (ogl_process_eq _ _ _ _ _ Hi Hin) |].
  unfold process_events, process_data. rewrite F.
  split; [| split; [| split; [eauto with ogl | split; reflexivity]]];
    destruct (truth (mirroring d) && negb (mblk_get_precious_flag m));
    reflexivity.
Qed.

Lemma process_forwards_last_of_any_queue_witness :
  exists s' e d',
    ogl_process sample_state = Some (tt, s', e) /\
    renderer_calls e =
      [ogl_display_set_yuv_to_display_ev (display sample_data) (sample_frame 2)] /\
    lock_depth e = 0 /\
    installed s' 0%nat d' /\
    video_size d' =
      MSVideoSize.mk (MSPicture.h (MSPicture.mk 640 480 2))
                     (MSVideoSize.height (video_size sample_data)) /\
    inputs (flt s') = [Some []; flushed (Some [])].
Proof.
  apply (process_forwards_last_of_any_queue sample_state 0%nat sample_data
           [sample_frame 1] (sample_frame 2) (Some []) (MSPicture.mk 640 480 2)).
  - split; reflexivity.
  - reflexivity.
  - split; discriminate.
  - discriminate.
  - reflexivity.
Defined.

(** X3.  When the first input is not connected, or its queue is empty, or
    its last block is refused by [ms_yuv_buf_init_from_mblk], [ogl_process]
    only takes and releases the lock: no renderer call, no mirroring, the
    heap as it was; the inputs are flushed all the same. *)
Theorem process_with_nothing_to_forward (s : State) (a : addr)
    (d : FilterData) (i0 i1 : option MSQueue)
    (Hi : installed s a d)
    (Hin : inputs (flt s) = [i0; i1])
    (Hnone : i0 = None \/ i0 = Some [] \/
             exists q m, i0 = Some (q ++ [m]) /\
                         ms_yuv_buf_init_from_mblk m = None) :
  exists s',
    ogl_process s = Some (tt, s', [ms_filter_lock_ev; ms_filter_unlock_ev]) /\
    heap s' = heap s /\
    inputs (flt s') = [flushed i0; flushed i1].
Proof.
  pose proof Hi as [_ Ha].
  assert (F : frame_to_forward d i0 = None).
  { unfold frame_to_forward, peek_frame. destruct (process_gate d); [| reflexivity].
    destruct Hnone as [-> | [-> | (q & m & -> & Y)]]; try reflexivity.
    rewrite peek_last_snoc, Y. reflexivity. }
  eexists. split; [rewrite (ogl_process_eq _ _ _ _ _ Hi Hin) |].
  - unfold process_events. rewrite F. reflexivity.
  - cbn [heap flt inputs]. unfold process_data. rewrite F.
    split; [apply list_insert_id; exact Ha | reflexivity].
Qed.

Lemma process_with_nothing_to_forward_witness :
  exists s',
    ogl_process
      (mkState (mkFilter (Some 0%nat) [Some [sample_frame 1; mkblk 2 None false]; None])
               [Some sample_data] 1)
      = Some (tt, s', [ms_filter_lock_ev; ms_filter_unlock_ev]) /\
    heap s' = [Some sample_data] /\
    inputs (flt s') = [flushed (Some [sample_frame 1; mkblk 2 None false]); flushed None].
Proof.
  apply (process_with_nothing_to_forward
           (mkState (mkFilter (Some 0%nat)
                       [Some [sample_frame 1; mkblk 2 None false]; None])
                    [Some sample_data] 1)
           0%nat sample_data (Some [sample_frame 1; mkblk 2 None false]) None).
  - split; reflexivity.
  - reflexivity.
  - right. right. exists [sample_frame 1], (mkblk 2 None false).
    split; reflexivity.
Defined.

(** X4.  The second input is never looked at: with any other queue, or no
    queue, on the second input, [ogl_process] gives the same output and the
    same heap. *)
Theorem process_ignores_second_input (s : State) (a : addr) (d : FilterData)
    (i0 i1 i1' : option MSQueue)
    (Hi : installed s a d) (Hin : inputs (flt s) = [i0; i1]) :
  exists s1 s2 e,
    ogl_process s = Some (tt, s1, e) /\
    ogl_process (set_flt (mkFilter (data (flt s)) [i0; i1']) s) = Some (tt, s2, e) /\
    heap s1 = heap s2 /\
    inputs (flt s1) !! 0%nat = inputs (flt s2) !! 0%nat.
Proof.
  eexists _, _, _. split; [apply (ogl_process_eq _ _ _ _ _ Hi Hin) |].
  split.
  - rewrite (ogl_process_eq _ a d i0 i1'); [reflexivity | | reflexivity].
    destruct Hi as [Hp Ha]. split; [exact Hp | exact Ha].
  - split; reflexivity.
Qed.

Lemma process_ignores_second_input_witness :
  exists s1 s2 e,
    ogl_process sample_state = Some (tt, s1, e) /\
    ogl_process
      (set_flt (mkFilter (data (flt sample_state))
                  [Some [sample_frame 1; sample_frame 2]; Some [sample_frame 9]])
               sample_state) = Some (tt, s2, e) /\
    heap s1 = heap s2 /\
    inputs (flt s1) !! 0%nat = inputs (flt s2) !! 0%nat.
Proof.
  apply (process_ignores_second_input sample_state 0%nat sample_data
           (Some [sample_frame 1; sample_frame 2]) (Some [])
           (Some [sample_frame 9])).
  - split; reflexivity.
  - reflexivity.
Defined.

(** X5.  Running [ogl_process] again at once does nothing more: the second
    run finds the queues empty, only takes and releases the lock, and
    leaves the state of the first run. *)
Theorem process_twice_is_process_once (s : State) (a : addr) (d : FilterData)
    (Hi : installed s a d)
    (Hin : length (inputs (flt s)) = MSFilterDesc.ninputs ms_ogl_desc) :
  exists s1 e1,
    ogl_process s = Some (tt, s1, e1) /\
    ogl_process s1 = Some (tt, s1, [ms_filter_lock_ev; ms_filter_unlock_ev]).
Proof.
  destruct (two_inputs _ Hin) as (i0 & i1 & Hins). pose proof Hi as [_ Ha].
  eexists _, _. split; [apply (ogl_process_eq _ _ _ _ _ Hi Hins) |].
  rewrite (ogl_process_eq _ a (process_data d i0) (flushed i0) (flushed i1));
    [| eauto with ogl | reflexivity].
  unfold process_events, process_data at 1.
  rewrite frame_to_forward_flushed. cbn [heap next_display app].
  rewrite list_insert_insert_eq. destruct i0, i1; reflexivity.
Qed.

Lemma process_twice_is_process_once_witness :
  exists s1 e1,
    ogl_process sample_state = Some (tt, s1, e1) /\
    ogl_process s1 = Some (tt, s1, [ms_filter_lock_ev; ms_filter_unlock_ev]).
Proof.
  apply (process_twice_is_process_once sample_state 0%nat sample_data).
  - split; reflexivity.
  - reflexivity.
Defined.

(** ** Initialisation and teardown *)

(** X6.  What [ogl_init] builds does not depend on the GLEW probe: for any
    two probe outcomes the resulting states are equal.  The probe decides
    the log only: nothing on success, "glew init error" when [glewInit]
    fails (the version is then not looked at), "glew 2.0 is required" when
    only the version flag is missing.  The inputs and the blocks that
    existed before are left as they were. *)
Theorem init_does_not_depend_on_probe (g g' : Glew) (s : State) :
  exists s' e e',
    ogl_init g s = Some (tt, s', e) /\
    ogl_init g' s = Some (tt, s', e') /\
    List.filter is_error e = probe_errors g /\
    inputs (flt s') = inputs (flt s) /\
    forall b x, heap s !! b = Some x -> heap s' !! b = Some x.
Proof.
  eexists _, _, _. split; [apply ogl_init_eq |]. split; [apply ogl_init_eq |].
  split; [destruct g as [[|] [|]]; reflexivity |]. split; [reflexivity |].
  intros b x H. cbn [heap]. apply lookup_app_l_Some. exact H.
Qed.

(** X7.  A filter fresh from [ogl_init] is unbound: through any sequence of
    operations without a binding to a non-null context, no [ogl_process]
    and no [ogl_call_render] reaches the renderer, whatever frames arrive. *)
Theorem fresh_filter_silent_until_bound (g : Glew) (s : State) (ops : list Op)
    (Hin : length (inputs (flt s)) = MSFilterDesc.ninputs ms_ogl_desc)
    (Hops : forallb (fun o => negb (rebinds o)) ops = true) :
  exists s1 e1 s' tr,
    ogl_init g s = Some (tt, s1, e1) /\
    run ops s1 = Some (s', tr) /\
    List.map fst tr = ops /\
    Forall (fun oe => draws (fst oe) = true -> renderer_calls (snd oe) = []) tr.
Proof.
  destruct (run_unbound ops
              (mkState (mkFilter (Some (length (heap s))) (inputs (flt s)))
                       (heap s ++ [Some (init_data (next_display s))])
                       (S (next_display s)))
              (length (heap s)) (init_data (next_display s)))
    as (s' & tr & Hrun & Hmap & Hq).
  - split; [reflexivity | apply lookup_fresh_block].
  - exact Hin.
  - reflexivity.
  - exact Hops.
  - eexists _, _, s', tr. split; [apply ogl_init_eq |]. auto.
Qed.

Lemma fresh_filter_silent_until_bound_witness :
  exists s1 e1 s' tr,
    ogl_init (mkGlew true true) blank_state = Some (tt, s1, e1) /\
    run [Enqueue 0 (sample_frame 1); ProcessFrame; Render (ArgOpaque 0);
         SetMirroring TRUE; Enqueue 0 (sample_frame 2); ProcessFrame] s1
      = Some (s', tr) /\
    List.map fst tr =
      [Enqueue 0 (sample_frame 1); ProcessFrame; Render (ArgOpaque 0);
       SetMirroring TRUE; Enqueue 0 (sample_frame 2); ProcessFrame] /\
    Forall (fun oe => draws (fst oe) = true -> renderer_calls (snd oe) = []) tr.
Proof.
  apply (fresh_filter_silent_until_bound (mkGlew true true) blank_state).
  - reflexivity.
  - reflexivity.
Defined.

(** X8.  [ogl_uninit] frees no renderer handle in any state: its one
    renderer call is [ogl_display_free] on a null pointer.  It leaves the
    filter, its [data] pointer included, and every block that existed
    untouched. *)
Theorem uninit_frees_no_handle (s : State) :
  exists s' e,
    ogl_uninit s = Some (tt, s', e) /\
    renderer_calls e = [ogl_display_free_ev None] /\
    (forall h, frees_of h e = 0%nat) /\
    flt s' = flt s /\
    next_display s' = next_display s /\
    forall b x, heap s !! b = Some x -> heap s' !! b = Some x.
Proof.
  eexists _, _. split; [apply ogl_uninit_eq |].
  split; [reflexivity |]. split; [reflexivity |].
  split; [reflexivity |]. split; [reflexivity |].
  intros b x H. cbn [set_heap heap]. apply lookup_app_l_Some. exact H.
Qed.

(** X9.  Before [ogl_init], with [f->data] null, [ogl_process] and every
    method that reads the block fault on the null pointer; only
    [ogl_get_native_window_id], which touches nothing, returns 0, and
    [ogl_uninit], which does not read [f->data], returns. *)
Theorem callbacks_fault_without_block (s : State)
    (Hnull : data (flt s) = None) :
  ogl_process s = None /\
  (forall arg, ogl_set_video_size arg s = None) /\
  (forall arg, ogl_set_native_window_id arg s = None) /\
  (forall arg, ogl_show_video arg s = None) /\
  (forall arg, ogl_zoom arg s = None) /\
  (forall arg, ogl_enable_mirroring arg s = None) /\
  (forall arg, ogl_call_render arg s = None) /\
  (forall arg, ogl_get_native_window_id arg s = Some (0, s, [])) /\
  (exists s' e, ogl_uninit s = Some (tt, s', e)).
Proof.
  destruct s as [[p ins] hp nd]. cbn [flt data] in Hnull. subst p.
  repeat split; try (intros arg); try reflexivity.
  - unfold ogl_set_video_size. destruct arg; reflexivity.
  - unfold ogl_set_native_window_id. destruct arg as [| [ci |] | | |]; reflexivity.
  - unfold ogl_show_video. destruct arg; reflexivity.
  - unfold ogl_enable_mirroring. destruct arg; reflexivity.
  - eexists _, _. apply ogl_uninit_eq.
Qed.

Lemma callbacks_fault_without_block_witness :
  ogl_process blank_state = None /\
  (forall arg, ogl_set_video_size arg blank_state = None) /\
  (forall arg, ogl_set_native_window_id arg blank_state = None) /\
  (forall arg, ogl_show_video arg blank_state = None) /\
  (forall arg, ogl_zoom arg blank_state = None) /\
  (forall arg, ogl_enable_mirroring arg blank_state = None) /\
  (forall arg, ogl_call_render arg blank_state = None) /\
  (forall arg, ogl_get_native_window_id arg blank_state = Some (0, blank_state, [])) /\
  (exists s' e, ogl_uninit blank_state = Some (tt, s', e)).
Proof.
  apply (callbacks_fault_without_block blank_state). reflexivity.
Defined.

(** ** What every run keeps *)

Lemma lock_depth_app e1 e2 : lock_depth (e1 ++ e2) = lock_depth e1 + lock_depth e2.
Proof.
  induction e1 as [| ev e1 IH]; [reflexivity |].
  destruct ev; cbn [app lock_depth]; lia.
Qed.

Lemma op_data_display o d in0 : display (op_data o d in0) = display d.
Proof.
  destruct o as [| vs | [ci |] | arg | b | arg | b | arg | i m];
    cbn [op_data]; try reflexivity.
  unfold process_data. destruct (frame_to_forward d in0) as [[inm src] |]; reflexivity.
Qed.

Lemma op_events_display o d in0 ev p :
  In ev (op_events o d in0) -> display_arg ev = Some p -> p = display d.
Proof.
  destruct o as [| vs | [ci |] | arg | b | arg | b | arg | i m];
    cbn [op_events].
  - unfold process_events.
    destruct (frame_to_forward d in0) as [[inm src] |];
      [destruct (truth (mirroring d) && negb (mblk_get_precious_flag inm)) |];
      cbn [app In]; intros H;
      repeat (destruct H as [H | H]; [subst ev; cbn [display_arg]; congruence |]);
      contradiction.
  - cbn [In]. intros H.
    repeat (destruct H as [H | H]; [subst ev; cbn [display_arg]; congruence |]);
      contradiction.
  - cbn [In]. intros H.
    repeat (destruct H as [H | H]; [subst ev; cbn [display_arg]; congruence |]);
      contradiction.
  - cbn [In]. intros H.
    repeat (destruct H as [H | H]; [subst ev; cbn [display_arg]; congruence |]);
      contradiction.
  - intros [].
  - cbn [In]. intros H.
    repeat (destruct H as [H | H]; [subst ev; cbn [display_arg]; congruence |]);
      contradiction.
  - cbn [In]. intros H.
    repeat (destruct H as [H | H]; [subst ev; cbn [display_arg]; congruence |]);
      contradiction.
  - cbn [In]. intros H.
    repeat (destruct H as [H | H]; [subst ev; cbn [display_arg]; congruence |]);
      contradiction.
  - unfold render_events. destruct (render_gate d); cbn [app In]; intros H;
      repeat (destruct H as [H | H]; [subst ev; cbn [display_arg]; congruence |]);
      contradiction.
  - intros [].
Qed.

Lemma op_events_lock_depth o d in0 :
  lock_depth (op_events o d in0) = if relocks o then 2 else 0.
Proof.
  destruct o as [| vs | [ci |] | arg | b | arg | b | arg | i m];
    cbn [op_events relocks]; try reflexivity.
  - unfold process_events.
    destruct (frame_to_forward d in0) as [[inm src] |]; [| reflexivity].
    destruct (truth (mirroring d) && negb (mblk_get_precious_flag inm)); reflexivity.
  - unfold render_events. destruct (render_gate d); reflexivity.
Qed.

Lemma op_events_no_new_free o d in0 ev :
  In ev (op_events o d in0) ->
  (forall p, ev <> ogl_display_free_ev p) /\ (forall h, ev <> ogl_display_new_ev h).
Proof.
  destruct o as [| vs | [ci |] | arg | b | arg | b | arg | i m];
    cbn [op_events]; try unfold process_events; try unfold render_events;
    try destruct (frame_to_forward d in0) as [[inm src] |];
    try destruct (truth (mirroring d) && negb (mblk_get_precious_flag inm));
    try destruct (render_gate d);
    cbn [app In]; intros H;
    repeat (destruct H as [H | H]; [subst ev; split; intros; discriminate |]);
    contradiction.
Qed.

(** Everything a run on an initialised filter keeps, by induction on the
    operations. *)
Lemma run_installed ops :
  forall s a d,
    installed s a d -> length (inputs (flt s)) = 2%nat ->
    exists s' tr d',
      run ops s = Some (s', tr) /\
      List.map fst tr = ops /\
      installed s' a d' /\
      display d' = display d /\
      length (heap s') = length (heap s) /\
      length (inputs (flt s')) = 2%nat /\
      next_display s' = next_display s /\
      (forall ev p, In ev (run_output tr) -> display_arg ev = Some p ->
                    p = display d) /\
      (forall ev, In ev (run_output tr) ->
                  (forall p, ev <> ogl_display_free_ev p) /\
                  (forall h, ev <> ogl_display_new_ev h)) /\
      lock_depth (run_output tr) =
        2 * Z.of_nat (length (List.filter relocks ops)).
Proof.
  induction ops as [| o ops IH]; intros s a d Hi Hin.
  - exists s, [], d. cbn [run List.map List.filter length run_output concat].
    split; [reflexivity |]. split; [reflexivity |]. split; [exact Hi |].
    split; [reflexivity |]. split; [reflexivity |]. split; [exact Hin |].
    split; [reflexivity |]. split; [intros ev p [] |].
    split; [intros ev [] | reflexivity].
  - destruct (two_inputs _ Hin) as (i0 & i1 & Hins). pose proof Hi as [_ Ha].
    destruct (IH (mkState (mkFilter (Some a) (op_inputs o [i0; i1]))
                    (<[a := Some (op_data o d i0)]> (heap s)) (next_display s))
                 a (op_data o d i0))
      as (s' & tr & d' & Hrun & Hmap & Hi' & Hd & Hh & Hl & Hn & Hev & Hnf & Hlk).
    + eauto with ogl.
    + cbn [flt inputs]. rewrite op_inputs_length. reflexivity.
    + exists s', ((o, op_events o d i0) :: tr), d'.
      cbn [run]. rewrite (step_eq _ _ _ _ _ _ Hi Hins), Hrun.
      cbn [heap next_display] in Hh, Hn. rewrite length_insert in Hh.
      rewrite op_data_display in Hd, Hev.
      split; [reflexivity |]. split; [cbn [List.map fst]; congruence |].
      split; [exact Hi' |]. split; [exact Hd |]. split; [exact Hh |].
      split; [exact Hl |]. split; [exact Hn |]. split.
      * unfold run_output. cbn [List.map snd concat]. intros ev p Hin' Hp.
        apply in_app_or in Hin' as [Hin' | Hin'].
        -- eapply op_events_display; eauto.
        -- eapply Hev; eauto.
      * split.
        -- unfold run_output. cbn [List.map snd concat]. intros ev Hin'.
           apply in_app_or in Hin' as [Hin' | Hin'].
           ++ eapply op_events_no_new_free; eauto.
           ++ apply Hnf. exact Hin'.
        -- unfold run_output in *. cbn [List.map snd concat List.filter].
           rewrite lock_depth_app, Hlk, op_events_lock_depth.
           destruct (relocks o); cbn [length]; lia.
Qed.

Lemma mutex_after_app held e1 e2 :
  mutex_after held (e1 ++ e2) =
    match mutex_after held e1 with
    | Some h => mutex_after h e2
    | None => None
    end.
Proof.
  revert held. induction e1 as [| ev e1 IH]; intros held; [reflexivity |].
  destruct ev; cbn [app mutex_after]; try apply IH.
  destruct held; [reflexivity | apply IH].
Qed.

Lemma op_events_mutex o d in0 :
  relocks o = false -> mutex_after false (op_events o d in0) = Some false.
Proof.
  destruct o as [| vs | [ci |] | arg | b | arg | b | arg | i m];
    cbn [relocks op_events]; intros R; try discriminate R; try reflexivity.
  - apply process_events_mutex.
  - apply render_events_mutex.
Qed.

Lemma op_data_others o d in0 (hp : list (option FilterData)) a b :
  b <> a -> <[a := Some (op_data o d in0)]> hp !! b = hp !! b.
Proof. intros Hne. apply list_lookup_insert_ne. congruence. Qed.

(** What a run without re-locking operation keeps, by induction on the
    operations. *)
Lemma run_unlocking ops :
  forall s a d,
    installed s a d -> length (inputs (flt s)) = 2%nat ->
    forallb (fun o => negb (relocks o)) ops = true ->
    exists s' tr d',
      run ops s = Some (s', tr) /\
      List.map fst tr = ops /\
      mutex_after false (run_output tr) = Some false /\
      installed s' a d' /\
      display d' = display d /\
      mirroring d' = mirroring d /\
      length (heap s') = length (heap s) /\
      (forall b, b <> a -> heap s' !! b = heap s !! b) /\
      next_display s' = next_display s /\
      length (inputs (flt s')) = 2%nat.
Proof.
  induction ops as [| o ops IH]; intros s a d Hi Hin Hops.
  - exists s, [], d. cbn [run List.map run_output concat mutex_after].
    split; [reflexivity |]. split; [reflexivity |]. split; [reflexivity |].
    split; [exact Hi |]. split; [reflexivity |]. split; [reflexivity |].
    split; [reflexivity |]. split; [reflexivity |]. split; [reflexivity | exact Hin].
  - cbn [forallb] in Hops. apply andb_true_iff in Hops as [Ho Hrest].
    apply negb_true_iff in Ho.
    destruct (two_inputs _ Hin) as (i0 & i1 & Hins). pose proof Hi as [_ Ha].
    destruct (IH (mkState (mkFilter (Some a) (op_inputs o [i0; i1]))
                    (<[a := Some (op_data o d i0)]> (heap s)) (next_display s))
                 a (op_data o d i0))
      as (s' & tr & d' & Hrun & Hmap & Hmx & Hi' & Hd & Hm & Hh & Hoth & Hn & Hl).
    + eauto with ogl.
    + cbn [flt inputs]. rewrite op_inputs_length. reflexivity.
    + exact Hrest.
    + exists s', ((o, op_events o d i0) :: tr), d'.
      cbn [run]. rewrite (step_eq _ _ _ _ _ _ Hi Hins), Hrun.
      cbn [heap next_display] in Hh, Hn, Hoth. rewrite length_insert in Hh.
      rewrite op_data_display in Hd.
      split; [reflexivity |]. split; [cbn [List.map fst]; congruence |].
      split.
      { unfold run_output in *. cbn [List.map snd concat].
        rewrite mutex_after_app, (op_events_mutex _ _ _ Ho). exact Hmx. }
      split; [exact Hi' |]. split; [exact Hd |].
      split.
      { rewrite Hm. destruct o as [| vs | [ci |] | arg | b | arg | b | arg | i m];
          cbn [op_data relocks] in Ho |- *; try discriminate Ho; try reflexivity.
        unfold process_data.
        destruct (frame_to_forward d i0) as [[inm src] |]; reflexivity. }
      split; [exact Hh |].
      split; [| split; [exact Hn | exact Hl]].
      intros b Hb. rewrite (Hoth b Hb). apply op_data_others. exact Hb.
Qed.

(** X10.  On an initialised filter with its two inputs, every sequence of
    operations without SetZoom and SetMirroring runs to its end without a
    fault, each lock operation finding the mutex free and each followed by
    its unlock.  The run leaves the same block installed with the renderer
    handle it had, leaves every other block as it was, live or freed,
    allocates none, asks the renderer for no new handle, and keeps the two
    inputs. *)
Theorem run_keeps_block_and_handle (s : State) (a : addr) (d : FilterData)
    (ops : list Op) (Hi : installed s a d)
    (Hin : length (inputs (flt s)) = MSFilterDesc.ninputs ms_ogl_desc)
    (Hops : forallb (fun o => negb (relocks o)) ops = true) :
  exists s' tr d',
    run ops s = Some (s', tr) /\
    List.map fst tr = ops /\
    mutex_after false (run_output tr) = Some false /\
    installed s' a d' /\
    display d' = display d /\
    length (heap s') = length (heap s) /\
    (forall b, b <> a -> heap s' !! b = heap s !! b) /\
    next_display s' = next_display s /\
    length (inputs (flt s')) = MSFilterDesc.ninputs ms_ogl_desc.
Proof.
  destruct (run_unlocking ops s a d Hi Hin Hops)
    as (s' & tr & d' & Hrun & Hmap & Hmx & Hi' & Hd & _ & Hh & Hoth & Hn & Hl).
  exists s', tr, d'.
  split; [exact Hrun |]. split; [exact Hmap |]. split; [exact Hmx |].
  split; [exact Hi' |]. split; [exact Hd |]. split; [exact Hh |].
  split; [exact Hoth |]. split; [exact Hn | exact Hl].
Qed.

Lemma run_keeps_block_and_handle_witness :
  exists s' tr d',
    run [ProcessFrame; Render (ArgOpaque 7); BindSurface None;
         SetVideoSize (MSVideoSize.mk 320 240); Enqueue 1 (sample_frame 5);
         ProcessFrame] sample_state = Some (s', tr) /\
    List.map fst tr =
      [ProcessFrame; Render (ArgOpaque 7); BindSurface None;
       SetVideoSize (MSVideoSize.mk 320 240); Enqueue 1 (sample_frame 5);
       ProcessFrame] /\
    mutex_after false (run_output tr) = Some false /\
    installed s' 0%nat d' /\
    display d' = display sample_data /\
    length (heap s') = length (heap sample_state) /\
    (forall b, b <> 0%nat -> heap s' !! b = heap sample_state !! b) /\
    next_display s' = next_display sample_state /\
    length (inputs (flt s')) = MSFilterDesc.ninputs ms_ogl_desc.
Proof.
  apply (run_keeps_block_and_handle sample_state 0%nat sample_data).
  - split; reflexivity.
  - reflexivity.
  - reflexivity.
Defined.

(** X11.  Every renderer call made in a run ([ogl_display_init],
    [ogl_display_set_yuv_to_display], [ogl_display_zoom],
    [ogl_display_render]) is made on the handle of the installed block; no
    run frees a handle or asks for a new one. *)
Theorem run_calls_renderer_on_installed_handle (s : State) (a : addr)
    (d : FilterData) (ops : list Op) (Hi : installed s a d)
    (Hin : length (inputs (flt s)) = MSFilterDesc.ninputs ms_ogl_desc) :
  exists s' tr,
    run ops s = Some (s', tr) /\
    (forall ev p, In ev (run_output tr) -> display_arg ev = Some p ->
                  p = display d) /\
    (forall p, ~ In (ogl_display_free_ev p) (run_output tr)) /\
    (forall h, ~ In (ogl_display_new_ev h) (run_output tr)).
Proof.
  destruct (run_installed ops s a d Hi Hin)
    as (s' & tr & d' & Hrun & _ & _ & _ & _ & _ & _ & Hev & Hnf & _).
  exists s', tr. split; [exact Hrun |]. split; [exact Hev |].
  split; intros x Hx; destruct (Hnf _ Hx) as [Hf Hn];
    [apply (Hf x) | apply (Hn x)]; reflexivity.
Qed.

Lemma run_calls_renderer_on_installed_handle_witness :
  exists s' tr,
    run [BindSurface (Some (mkContextInfo 320 240)); ProcessFrame;
         SetZoom (ArgOpaque 7); Render (ArgOpaque 0)] sample_state
      = Some (s', tr) /\
    (forall ev p, In ev (run_output tr) -> display_arg ev = Some p ->
                  p = display sample_data) /\
    (forall p, ~ In (ogl_display_free_ev p) (run_output tr)) /\
    (forall h, ~ In (ogl_display_new_ev h) (run_output tr)).
Proof.
  apply (run_calls_renderer_on_installed_handle sample_state 0%nat sample_data).
  - split; reflexivity.
  - reflexivity.
Defined.

Lemma executed_all held e h :
  mutex_after held e = Some h -> executed held e = e.
Proof.
  revert held. induction e as [| ev e IH]; intros held H; [reflexivity |].
  destruct ev; cbn [mutex_after executed] in H |- *;
    try (f_equal; apply IH; exact H).
  destruct held; [discriminate H |]. f_equal. apply IH. exact H.
Qed.

Lemma executed_blocked held e1 e2 :
  mutex_after held e1 = None -> executed held (e1 ++ e2) = executed held e1.
Proof.
  revert held. induction e1 as [| ev e1 IH]; intros held H; [discriminate H |].
  destruct ev; cbn [mutex_after executed app] in H |- *;
    try (f_equal; apply IH; exact H).
  destruct held; [reflexivity |]. f_equal. apply IH. exact H.
Qed.

Lemma executed_app held e1 e2 h :
  mutex_after held e1 = Some h ->
  executed held (e1 ++ e2) = e1 ++ executed h e2.
Proof.
  revert held. induction e1 as [| ev e1 IH]; intros held H.
  - cbn [mutex_after] in H. injection H as ->. reflexivity.
  - destruct ev; cbn [mutex_after executed app] in H |- *;
      try (f_equal; apply IH; exact H).
    destruct held; [discriminate H |]. f_equal. apply IH. exact H.
Qed.

Lemma op_events_relock o d in0 :
  relocks o = true ->
  mutex_after false (op_events o d in0) = None /\
  executed false (op_events o d in0) = op_events o d in0.
Proof.
  destruct o as [| vs | [ci |] | arg | b | arg | b | arg | i m];
    cbn [relocks op_events]; intros R; try discriminate R; split; reflexivity.
Qed.

Lemma run_app ops1 ops2 s s1 tr1 :
  run ops1 s = Some (s1, tr1) ->
  run (ops1 ++ ops2) s =
    match run ops2 s1 with
    | Some (s2, tr2) => Some (s2, tr1 ++ tr2)
    | None => None
    end.
Proof.
  revert s s1 tr1. induction ops1 as [| o ops1 IH]; intros s s1 tr1 H.
  - cbn [run] in H. injection H as <- <-. cbn [app].
    destruct (run ops2 s) as [[s2 tr2] |]; reflexivity.
  - cbn [run app] in H |- *.
    destruct (step o s) as [[[x s0] e] |]; [| discriminate H].
    destruct (run ops1 s0) as [[s0' tr0] |] eqn:R; [| discriminate H].
    injection H as <- <-. rewrite (IH _ _ _ R).
    destruct (run ops2 s0') as [[s2 tr2] |]; reflexivity.
Qed.

Lemma run_output_app tr1 tr2 :
  run_output (tr1 ++ tr2) = run_output tr1 ++ run_output tr2.
Proof. unfold run_output. rewrite List.map_app. apply concat_app. Qed.

(** X12.  The first SetZoom or SetMirroring wedges the filter.  Take a run
    whose operations before it are all of the unlocking kind: on the mutex,
    those execute in full and leave it free; the re-locking operation makes
    all its calls, the last being the lock operation that finds the mutex
    held; and of whatever operations follow, nothing is executed. *)
Theorem first_relock_wedges_the_filter (s : State) (a : addr) (d : FilterData)
    (pre post : list Op) (o : Op) (Hi : installed s a d)
    (Hin : length (inputs (flt s)) = MSFilterDesc.ninputs ms_ogl_desc)
    (Hpre : forallb (fun o => negb (relocks o)) pre = true)
    (Ho : relocks o = true) :
  exists s' tr_pre e tr_post,
    run (pre ++ o :: post) s = Some (s', tr_pre ++ (o, e) :: tr_post) /\
    List.map fst tr_pre = pre /\
    List.map fst tr_post = post /\
    mutex_after false (run_output tr_pre) = Some false /\
    mutex_after false e = None /\
    executed false (run_output (tr_pre ++ (o, e) :: tr_post)) =
      run_output tr_pre ++ e.
Proof.
  destruct (run_unlocking pre s a d Hi Hin Hpre)
    as (s1 & tr1 & d1 & Hrun1 & Hmap1 & Hmx1 & Hi1 & _ & _ & _ & _ & _ & Hl1).
  destruct (two_inputs _ Hl1) as (i0 & i1 & Hins1). pose proof Hi1 as [_ Ha1].
  destruct (run_installed post
              (mkState (mkFilter (Some a) (op_inputs o [i0; i1]))
                 (<[a := Some (op_data o d1 i0)]> (heap s1)) (next_display s1))
              a (op_data o d1 i0))
    as (s2 & tr2 & d2 & Hrun2 & Hmap2 & _).
  { eauto with ogl. }
  { cbn [flt inputs]. rewrite op_inputs_length. reflexivity. }
  destruct (op_events_relock o d1 i0 Ho) as [Hblk Hexe].
  exists s2, tr1, (op_events o d1 i0), tr2.
  split.
  - rewrite (run_app _ _ _ _ _ Hrun1). cbn [run].
    rewrite (step_eq _ _ _ _ _ _ Hi1 Hins1), Hrun2. reflexivity.
  - split; [exact Hmap1 |]. split; [exact Hmap2 |]. split; [exact Hmx1 |].
    split; [exact Hblk |].
    rewrite run_output_app. rewrite (executed_app _ _ _ _ Hmx1). f_equal.
    change (run_output ((o, op_events o d1 i0) :: tr2))
      with (op_events o d1 i0 ++ run_output tr2).
    rewrite (executed_blocked _ _ _ Hblk). exact Hexe.
Qed.

Lemma first_relock_wedges_the_filter_witness :
  exists s' tr_pre e tr_post,
    run ([ProcessFrame; SetVisible TRUE] ++ SetZoom (ArgOpaque 7)
           :: [Enqueue 0 (sample_frame 3); ProcessFrame; Render (ArgOpaque 0)])
        sample_state
      = Some (s', tr_pre ++ (SetZoom (ArgOpaque 7), e) :: tr_post) /\
    List.map fst tr_pre = [ProcessFrame; SetVisible TRUE] /\
    List.map fst tr_post =
      [Enqueue 0 (sample_frame 3); ProcessFrame; Render (ArgOpaque 0)] /\
    mutex_after false (run_output tr_pre) = Some false /\
    mutex_after false e = None /\
    executed false (run_output (tr_pre ++ (SetZoom (ArgOpaque 7), e) :: tr_post)) =
      run_output tr_pre ++ e.
Proof.
  apply (first_relock_wedges_the_filter sample_state 0%nat sample_data).
  - split; reflexivity.
  - reflexivity.
  - reflexivity.
  - reflexivity.
Defined.

(** X13.  Each operation other than SetZoom and SetMirroring returns 0,
    with the mutex free again, and writes only what is its own: the context
    is changed by BindSurface alone, [show_video] by SetVisible alone,
    [video_size] by ProcessFrame and SetVideoSize alone, the queues by
    ProcessFrame and by the upstream filter alone; the renderer handle and
    [mirroring] by none of them. *)
Theorem operations_write_only_their_field (s : State) (a : addr)
    (d : FilterData) (o : Op) (Hi : installed s a d)
    (Hin : length (inputs (flt s)) = MSFilterDesc.ninputs ms_ogl_desc)
    (Ho : relocks o = false) :
  exists s' e d',
    step o s = Some (0, s', e) /\
    mutex_after false e = Some false /\
    installed s' a d' /\
    display d' = display d /\
    mirroring d' = mirroring d /\
    (context_info d' <> context_info d -> exists ci, o = BindSurface ci) /\
    (show_video d' <> show_video d -> exists b, o = SetVisible b) /\
    (video_size d' <> video_size d ->
       o = ProcessFrame \/ exists vs, o = SetVideoSize vs) /\
    (inputs (flt s') <> inputs (flt s) ->
       o = ProcessFrame \/ exists i m, o = Enqueue i m).
Proof.
  destruct (two_inputs _ Hin) as (i0 & i1 & Hins). pose proof Hi as [_ Ha].
  eexists _, _, _. split; [apply (step_eq _ _ _ _ _ _ Hi Hins) |].
  split; [apply op_events_mutex; exact Ho |].
  split; [eauto with ogl |]. split; [apply op_data_display |].
  rewrite Hins. cbn [flt inputs].
  destruct o as [| vs | [ci |] | arg | b | arg | b | arg | i m];
    cbn [relocks] in Ho; try discriminate Ho;
    cbn [op_data op_inputs];
    try (unfold process_data;
         destruct (frame_to_forward d i0) as [[inm src] |]);
    (split; [reflexivity |]);
    repeat split; intros H; eauto; try (destruct H; reflexivity).
Qed.

Lemma operations_write_only_their_field_witness :
  exists s' e d',
    step (SetVisible FALSE) sample_state = Some (0, s', e) /\
    mutex_after false e = Some false /\
    installed s' 0%nat d' /\
    display d' = display sample_data /\
    mirroring d' = mirroring sample_data /\
    (context_info d' <> context_info sample_data ->
       exists ci, SetVisible FALSE = BindSurface ci) /\
    (show_video d' <> show_video sample_data ->
       exists b, SetVisible FALSE = SetVisible b) /\
    (video_size d' <> video_size sample_data ->
       SetVisible FALSE = ProcessFrame \/ exists vs, SetVisible FALSE = SetVideoSize vs) /\
    (inputs (flt s') <> inputs (flt sample_state) ->
       SetVisible FALSE = ProcessFrame \/ exists i m, SetVisible FALSE = Enqueue i m).
Proof.
  apply (operations_write_only_their_field sample_state 0%nat sample_data).
  - split; reflexivity.
  - reflexivity.
  - reflexivity.
Defined.

(** ** Settings take effect on the next frame *)

Lemma process_events_forward d q m src :
  process_gate d = true -> ms_yuv_buf_init_from_mblk m = Some src ->
  process_events d (Some (q ++ [m])) =
    ms_filter_lock_ev :: ogl_display_set_yuv_to_display_ev (display d) m ::
    (if truth (mirroring d) && negb (mblk_get_precious_flag m)
     then [ms_yuv_buf_mirror_ev src] else []) ++ [ms_filter_unlock_ev].
Proof.
  intros G Y. unfold process_events.
  rewrite (frame_to_forward_last d _ m src G (peek_last_snoc q m) Y). reflexivity.
Qed.

Lemma render_events_open d :
  process_gate d = true ->
  render_events d =
    [ms_filter_lock_ev; ogl_display_render_ev (display d) 0; ms_filter_unlock_ev].
Proof.
  intros G. unfold render_events. rewrite render_gate_process_gate, G. reflexivity.
Qed.

(** X14.  Unbinding and binding again restores rendering.  The unbinding
    makes no renderer call; the binding to a context of nonzero width and
    height calls [ogl_display_init] on the installed handle; after it, on a
    visible filter, [ogl_process] forwards the last queued frame and
    [ogl_call_render] draws. *)
Theorem unbind_then_bind_restores_rendering (s : State) (a : addr)
    (d : FilterData) (ci : ContextInfo) (q : MSQueue) (m : mblk_t)
    (i1 : option MSQueue) (src : MSPicture.t) (arg : Arg)
    (Hi : installed s a d)
    (Hin : inputs (flt s) = [Some (q ++ [m]); i1])
    (Hv : visible d)
    (Hw : width ci <> 0%N) (Hh : height ci <> 0%N)
    (Hyuv : ms_yuv_buf_init_from_mblk m = Some src) :
  exists s1 e1 s2 e2 s3 e3 e4,
    ogl_set_native_window_id (ArgWindowId None) s = Some (0, s1, e1) /\
    renderer_calls e1 = [] /\
    ogl_set_native_window_id (ArgWindowId (Some ci)) s1 = Some (0, s2, e2) /\
    renderer_calls e2 = [ogl_display_init_ev (display d) (width ci) (height ci)] /\
    ogl_process s2 = Some (tt, s3, e3) /\
    renderer_calls e3 = [ogl_display_set_yuv_to_display_ev (display d) m] /\
    ogl_call_render arg s3 = Some (0, s3, e4) /\
    renderer_calls e4 = [ogl_display_render_ev (display d) 0].
Proof.
  set (d1 := set_context_info (mkContextInfo 0 0) d).
  set (d2 := set_context_info ci d1).
  assert (Hi1 : installed (with_block a d1 s) a d1) by eauto with ogl.
  assert (Hi2 : installed (with_block a d2 (with_block a d1 s)) a d2)
    by eauto with ogl.
  assert (G2 : process_gate d2 = true).
  { apply process_gate_true. split; [split |]; assumption. }
  assert (Hin2 : inputs (flt (with_block a d2 (with_block a d1 s)))
                 = [Some (q ++ [m]); i1]) by exact Hin.
  pose proof Hi2 as [_ Ha2].
  eexists _, _, _, _, _, _, _.
  split; [apply (ogl_set_native_window_id_reset_eq Hi) |].
  split; [reflexivity |].
  split; [apply (ogl_set_native_window_id_bind_eq Hi1 _) |].
  split; [reflexivity |].
  split; [apply (ogl_process_eq _ _ _ _ _ Hi2 Hin2) |].
  split.
  - rewrite (process_events_forward d2 q m src G2 Hyuv).
    destruct (truth (mirroring d2) && negb (mblk_get_precious_flag m)); reflexivity.
  - assert (Hi3 : installed
               (mkState (mkFilter (Some a) [flushed (Some (q ++ [m])); flushed i1])
                  (<[a := Some (process_data d2 (Some (q ++ [m])))]>
                     (heap (with_block a d2 (with_block a d1 s))))
                  (next_display (with_block a d2 (with_block a d1 s))))
               a (process_data d2 (Some (q ++ [m])))) by eauto with ogl.
    split; [apply (ogl_call_render_eq Hi3 _) |].
    rewrite render_events_open.
    + cbn [renderer_calls List.filter is_renderer_call]. f_equal. f_equal.
      exact (op_data_display ProcessFrame d2 (Some (q ++ [m]))).
    + unfold process_data.
      destruct (frame_to_forward d2 (Some (q ++ [m]))) as [[inm src'] |];
        exact G2.
Qed.

Lemma unbind_then_bind_restores_rendering_witness :
  exists s1 e1 s2 e2 s3 e3 e4,
    ogl_set_native_window_id (ArgWindowId None) sample_state = Some (0, s1, e1) /\
    renderer_calls e1 = [] /\
    ogl_set_native_window_id (ArgWindowId (Some (mkContextInfo 320 240))) s1
      = Some (0, s2, e2) /\
    renderer_calls e2 = [ogl_display_init_ev (display sample_data) 320 240] /\
    ogl_process s2 = Some (tt, s3, e3) /\
    renderer_calls e3 =
      [ogl_display_set_yuv_to_display_ev (display sample_data) (sample_frame 2)] /\
    ogl_call_render (ArgOpaque 0) s3 = Some (0, s3, e4) /\
    renderer_calls e4 = [ogl_display_render_ev (display sample_data) 0].
Proof.
  apply (unbind_then_bind_restores_rendering sample_state 0%nat sample_data
           (mkContextInfo 320 240) [sample_frame 1] (sample_frame 2) (Some [])
           (MSPicture.mk 640 480 2) (ArgOpaque 0)).
  - split; reflexivity.
  - reflexivity.
  - discriminate.
  - discriminate.
  - discriminate.
  - reflexivity.
Defined.

(** X15.  Visibility is what the last [ogl_show_video] stored, any nonzero
    byte counting as true: on a bound filter, after [ogl_show_video] with
    flag [b] (itself without renderer call), [ogl_call_render] draws once if
    [b] is nonzero and makes no renderer call if [b] is zero, whatever
    [show_video] held before. *)
Theorem visibility_follows_last_show_video (s : State) (a : addr)
    (d : FilterData) (b : bool_t) (arg : Arg)
    (Hi : installed s a d) (Hb : bound d) :
  exists s1 e1 e2,
    ogl_show_video (ArgBool b) s = Some (0, s1, e1) /\
    renderer_calls e1 = [] /\
    ogl_call_render arg s1 = Some (0, s1, e2) /\
    renderer_calls e2 =
      if N.eqb b 0 then [] else [ogl_display_render_ev (display d) 0].
Proof.
  assert (Hi1 : installed (with_block a (set_show_video b d) s) a
                  (set_show_video b d)) by eauto with ogl.
  eexists _, _, _. split; [apply (ogl_show_video_eq Hi _) |].
  split; [reflexivity |]. split; [apply (ogl_call_render_eq Hi1 _) |].
  destruct (N.eqb_spec b 0) as [-> | Hne].
  - rewrite render_events_gated; [reflexivity |].
    apply process_gate_false. right. right. reflexivity.
  - rewrite render_events_open; [reflexivity |].
    apply process_gate_true. split; [exact Hb | exact Hne].
Qed.

Lemma visibility_follows_last_show_video_witness :
  exists s1 e1 e2,
    ogl_show_video (ArgBool 2%N) sample_state = Some (0, s1, e1) /\
    renderer_calls e1 = [] /\
    ogl_call_render (ArgOpaque 0) s1 = Some (0, s1, e2) /\
    renderer_calls e2 =
      if N.eqb 2 0 then [] else [ogl_display_render_ev (display sample_data) 0].
Proof.
  apply (visibility_follows_last_show_video sample_state 0%nat sample_data).
  - split; reflexivity.
  - split; discriminate.
Defined.

(** X17.  Frames that arrive while the filter is hidden are lost, not kept
    for later: [ogl_process] on a hidden filter forwards nothing and still
    empties the queue, so after [ogl_show_video] with true the next
    [ogl_process] finds nothing to forward. *)
Theorem frames_arriving_while_hidden_are_lost (s : State) (a : addr)
    (d : FilterData) (q : MSQueue) (i1 : option MSQueue)
    (Hi : installed s a d)
    (Hin : inputs (flt s) = [Some q; i1])
    (Hh : show_video d = 0%N) :
  exists s1 e1 s2 e2 s3,
    ogl_process s = Some (tt, s1, e1) /\
    renderer_calls e1 = [] /\
    ogl_show_video (ArgBool TRUE) s1 = Some (0, s2, e2) /\
    ogl_process s2 = Some (tt, s3, [ms_filter_lock_ev; ms_filter_unlock_ev]).
Proof.
  pose proof Hi as [_ Ha].
  assert (G : process_gate d = false)
    by (apply process_gate_false; right; right; exact Hh).
  assert (E : process_data d (Some q) = d).
  { unfold process_data, frame_to_forward. rewrite G. reflexivity. }
  assert (Hi1 : installed
                  (mkState (mkFilter (Some a) [flushed (Some q); flushed i1])
                     (<[a := Some (process_data d (Some q))]> (heap s))
                     (next_display s)) a d)
    by (rewrite E; eauto with ogl).
  eexists _, _, _, _, _.
  split; [apply (ogl_process_eq _ _ _ _ _ Hi Hin) |].
  split; [rewrite process_events_gated by exact G; reflexivity |].
  split; [apply (ogl_show_video_eq Hi1 _) |].
  erewrite ogl_process_eq; [| eauto with ogl | reflexivity].
  unfold process_events.
  rewrite (frame_to_forward_flushed (set_show_video TRUE d) (Some q)).
  reflexivity.
Qed.

Lemma frames_arriving_while_hidden_are_lost_witness :
  exists s1 e1 s2 e2 s3,
    ogl_process
      (mkState (mkFilter (Some 0%nat) [Some [sample_frame 1]; None])
               [Some (set_show_video FALSE sample_data)] 1)
      = Some (tt, s1, e1) /\
    renderer_calls e1 = [] /\
    ogl_show_video (ArgBool TRUE) s1 = Some (0, s2, e2) /\
    ogl_process s2 = Some (tt, s3, [ms_filter_lock_ev; ms_filter_unlock_ev]).
Proof.
  apply (frames_arriving_while_hidden_are_lost
           (mkState (mkFilter (Some 0%nat) [Some [sample_frame 1]; None])
                    [Some (set_show_video FALSE sample_data)] 1)
           0%nat (set_show_video FALSE sample_data) [sample_frame 1] None).
  - split; reflexivity.
  - reflexivity.
  - reflexivity.
Defined.

(** X18.  [ogl_zoom] is not gated: even after an unbinding and an
    [ogl_show_video] with false, when [ogl_process] and [ogl_call_render]
    stay away from the renderer, the calls it makes are a lock operation,
    [ogl_display_zoom] on the installed handle with its argument as it
    came, and a second lock operation, which finds the mutex held. *)
Theorem zoom_reaches_renderer_while_unbound_and_hidden (s : State) (a : addr)
    (d : FilterData) (arg : Arg) (Hi : installed s a d)
    (Hin : length (inputs (flt s)) = MSFilterDesc.ninputs ms_ogl_desc) :
  exists s1 e1 s2 e2,
    ogl_set_native_window_id (ArgWindowId None) s = Some (0, s1, e1) /\
    ogl_show_video (ArgBool FALSE) s1 = Some (0, s2, e2) /\
    quiet s2 /\
    calls (ogl_zoom arg s2) =
      [ms_filter_lock_ev; ogl_display_zoom_ev (display d) arg; ms_filter_lock_ev] /\
    mutex_after false (calls (ogl_zoom arg s2)) = None.
Proof.
  assert (Hi1 : installed
                  (with_block a (set_context_info (mkContextInfo 0 0) d) s) a
                  (set_context_info (mkContextInfo 0 0) d)) by eauto with ogl.
  assert (Hi2 : installed
                  (with_block a
                     (set_show_video FALSE (set_context_info (mkContextInfo 0 0) d))
                     (with_block a (set_context_info (mkContextInfo 0 0) d) s))
                  a
                  (set_show_video FALSE (set_context_info (mkContextInfo 0 0) d)))
    by eauto with ogl.
  exists (with_block a (set_context_info (mkContextInfo 0 0) d) s).
  eexists.
  exists (with_block a
            (set_show_video FALSE (set_context_info (mkContextInfo 0 0) d))
            (with_block a (set_context_info (mkContextInfo 0 0) d) s)).
  eexists.
  split; [apply (ogl_set_native_window_id_reset_eq Hi) |].
  split; [apply (ogl_show_video_eq Hi1 _) |].
  split.
  - eapply quiet_when_gated; [exact Hi2 | exact Hin |].
    apply process_gate_false. left. reflexivity.
  - rewrite (ogl_zoom_eq Hi2 arg). split; reflexivity.
Qed.

Lemma zoom_reaches_renderer_while_unbound_and_hidden_witness :
  exists s1 e1 s2 e2,
    ogl_set_native_window_id (ArgWindowId None) sample_state = Some (0, s1, e1) /\
    ogl_show_video (ArgBool FALSE) s1 = Some (0, s2, e2) /\
    quiet s2 /\
    calls (ogl_zoom (ArgOpaque 7) s2) =
      [ms_filter_lock_ev; ogl_display_zoom_ev (display sample_data) (ArgOpaque 7);
       ms_filter_lock_ev] /\
    mutex_after false (calls (ogl_zoom (ArgOpaque 7) s2)) = None.
Proof.
  apply (zoom_reaches_renderer_while_unbound_and_hidden
           sample_state 0%nat sample_data).
  - split; reflexivity.
  - reflexivity.
Defined.
